(** * s2t-gcp: text-to-speech command line tool

    A shallow embedding of [s2t-gcp.py] and the properties of its two flows
    (voice listing and synthesis) and of the dispatch in [main].

    The script is sequential Python with three kinds of effects: it prints
    to the console, it opens files, and it calls the Google Cloud
    Text-to-Speech client.  Each Python function is embedded as a
    computation in a small monad [Py] that threads the state of the world
    and distinguishes normal completion, a propagating exception and
    [sys.exit]. *)

From Stdlib.Strings Require Import Ascii String Byte.
From stdpp Require Import base option list strings pretty gmap.

Local Open Scope Z_scope.

(** ** Strings as the script builds them *)

Module PyStr.

(** The line feed character, written [\n] in the source. *)
Definition nl : string := String "010"%char "".

(** [s * n] on a Python string. *)
Fixpoint mul (s : string) (n : nat) : string :=
  match n with
  | O => ""
  | S n' => s +:+ mul s n'
  end.

(** [sep.join(xs)]. *)
Fixpoint join (sep : string) (xs : list string) : string :=
  match xs with
  | [] => ""
  | [x] => x
  | x :: rest => x +:+ sep +:+ join sep rest
  end.

(** Truth value of an optional string: [None] and [''] are falsy. *)
Definition truthy (x : option string) : bool :=
  match x with
  | None => false
  | Some s => negb (String.eqb s "")
  end.

End PyStr.

(** ** Text files: UTF-8 decoding and universal newlines

    [open(path, 'r', encoding='utf-8').read()] decodes the bytes of the file
    strictly (ill-formed input raises) and, in text mode, turns the line
    endings CR LF and CR into LF.  The result is a sequence of code points;
    [len] counts code points. *)

Module Utf8.

Definition between (lo hi b : N) : bool := ((lo <=? b) && (b <=? hi))%N.

(** Continuation byte, 0x80..0xBF. *)
Definition cont (b : N) : bool := between 128 191 b.

(** Payload of a continuation byte. *)
Definition low6 (b : N) : N := N.land b 63.

(** Bounds on the second byte of a three-byte sequence: 0xE0 excludes
    overlong forms, 0xED excludes the surrogates. *)
Definition second3 (c0 c1 : N) : bool :=
  if (c0 =? 224)%N then between 160 191 c1
  else if (c0 =? 237)%N then between 128 159 c1
  else cont c1.

(** Bounds on the second byte of a four-byte sequence: 0xF0 excludes
    overlong forms, 0xF4 stops at U+10FFFF. *)
Definition second4 (c0 c1 : N) : bool :=
  if (c0 =? 240)%N then between 144 191 c1
  else if (c0 =? 244)%N then between 128 143 c1
  else cont c1.

Fixpoint decode (bs : list byte) : option (list N) :=
  match bs with
  | [] => Some []
  | b0 :: r0 =>
      let c0 := Byte.to_N b0 in
      if (c0 <? 128)%N then cons c0 <$> decode r0
      else if between 194 223 c0 then
        match r0 with
        | b1 :: r1 =>
            let c1 := Byte.to_N b1 in
            if cont c1
            then cons (N.lor (N.shiftl (N.land c0 31) 6) (low6 c1)) <$> decode r1
            else None
        | _ => None
        end
      else if between 224 239 c0 then
        match r0 with
        | b1 :: b2 :: r2 =>
            let c1 := Byte.to_N b1 in
            let c2 := Byte.to_N b2 in
            if second3 c0 c1 && cont c2
            then cons (N.lor (N.shiftl (N.land c0 15) 12)
                        (N.lor (N.shiftl (low6 c1) 6) (low6 c2))) <$> decode r2
            else None
        | _ => None
        end
      else if between 240 244 c0 then
        match r0 with
        | b1 :: b2 :: b3 :: r3 =>
            let c1 := Byte.to_N b1 in
            let c2 := Byte.to_N b2 in
            let c3 := Byte.to_N b3 in
            if second4 c0 c1 && cont c2 && cont c3
            then cons (N.lor (N.shiftl (N.land c0 7) 18)
                        (N.lor (N.shiftl (low6 c1) 12)
                          (N.lor (N.shiftl (low6 c2) 6) (low6 c3)))) <$> decode r3
            else None
        | _ => None
        end
      else None
  end.

(** Universal newlines: CR LF and a lone CR both read as LF. *)
Fixpoint newlines (cps : list N) : list N :=
  match cps with
  | [] => []
  | c :: rest =>
      if (c =? 13)%N then
        match rest with
        | c' :: rest' => if (c' =? 10)%N then 10%N :: newlines rest'
                         else 10%N :: newlines rest
        | [] => [10%N]
        end
      else c :: newlines rest
  end.

Definition read_text (data : list byte) : option (list N) :=
  newlines <$> decode data.

End Utf8.

(** ** The client library: [google.cloud.texttospeech]

    The script uses the message types of the library and three calls of its
    client.  The types are records; what the remote service answers is part
    of the environment [Env] below. *)

(** The enumeration [SsmlVoiceGender] of the library, with the numeric
    value and the name of each member. *)
Inductive SsmlVoiceGender :=
| SSML_VOICE_GENDER_UNSPECIFIED
| MALE
| FEMALE
| NEUTRAL.

Definition SsmlVoiceGender_value (g : SsmlVoiceGender) : Z :=
  match g with
  | SSML_VOICE_GENDER_UNSPECIFIED => 0
  | MALE => 1
  | FEMALE => 2
  | NEUTRAL => 3
  end.

Definition SsmlVoiceGender_name (g : SsmlVoiceGender) : string :=
  match g with
  | SSML_VOICE_GENDER_UNSPECIFIED => "SSML_VOICE_GENDER_UNSPECIFIED"
  | MALE => "MALE"
  | FEMALE => "FEMALE"
  | NEUTRAL => "NEUTRAL"
  end.

(** Lookup of a member by value, as the call [SsmlVoiceGender(v)] does. *)
Definition SsmlVoiceGender_of_value (v : Z) : option SsmlVoiceGender :=
  if v =? 0 then Some SSML_VOICE_GENDER_UNSPECIFIED
  else if v =? 1 then Some MALE
  else if v =? 2 then Some FEMALE
  else if v =? 3 then Some NEUTRAL
  else None.

(** A voice descriptor of the catalog. *)
Record Voice := {
  name : string;
  language_codes : list string;
  ssml_gender : SsmlVoiceGender;
  natural_sample_rate_hertz : Z
}.

Inductive AudioEncoding := MP3.

Record SynthesisInput := { text : list N }.
Record VoiceSelectionParams := { vsp_language_code : string; vsp_name : string }.
Record AudioConfig := { audio_encoding : AudioEncoding }.

Record SynthesizeSpeechResponse := { audio_content : list byte }.
Record ListVoicesResponse := { voices : list Voice }.

(** ** Exceptions *)

Inductive exn :=
| FileNotFoundError (filename : string)
| IsADirectoryError (filename : string)
| PermissionError (filename : string)
| OSError (detail : string)
| UnicodeDecodeError
| ValueError (detail : string)
| ServiceError (detail : string).

(** ** The world the script runs in *)

(** An entry of the file system. *)
Inductive node :=
| RegularFile (data : list byte) (readable writable : bool)
| Directory.

(** Calls that leave the process: file opens and writes, and calls of the
    client library. *)
Inductive event :=
| EvOpenRead (path : string)
| EvOpenWrite (path : string)
| EvWrite (path : string) (data : list byte)
| EvClientCreate
| EvListVoices (language_code : string)
| EvSynthesize (input : SynthesisInput) (voice : VoiceSelectionParams)
               (config : AudioConfig).

(** The state of the world: the file system, what [print] and [print_help]
    put on the console (one entry per call), and the calls made so far.
    The file system is keyed by the path as the script spells it; two
    spellings of one file (a relative and an absolute path, a link) are not
    identified, so the statements below speak of the output path itself and
    not of other paths. *)
Record World := {
  fs : gmap string node;
  console : list string;
  calls : list event
}.

(** What the script does not decide: the text of exceptions and of the help
    page, whether the host lets a new file be created or a write go
    through, and the answers of the remote service. *)
Record Env := {
  str : exn -> string;
  format_help : string;
  create_fault : string -> option exn;
  write_fault : string -> list byte -> option exn;
  client_init : option exn;
  api_list_voices : string -> exn + ListVoicesResponse;
  api_synthesize_speech :
    SynthesisInput -> VoiceSelectionParams -> AudioConfig ->
    exn + SynthesizeSpeechResponse
}.

(** Contents of a regular file. *)
Definition file_content (w : World) (path : string) : option (list byte) :=
  match fs w !! path with
  | Some (RegularFile data _ _) => Some data
  | _ => None
  end.

(** ** The monad of Python computations *)

Inductive outcome (A : Type) :=
| Done (a : A) (w : World)
| Raised (e : exn) (w : World)
| Exited (code : Z) (w : World).
Arguments Done {A} a w.
Arguments Raised {A} e w.
Arguments Exited {A} code w.

Definition Py (A : Type) : Type := World -> outcome A.

Definition ret {A} (a : A) : Py A := fun w => Done a w.

Definition bind {A B} (m : Py A) (k : A -> Py B) : Py B :=
  fun w =>
    match m w with
    | Done a w' => k a w'
    | Raised e w' => Raised e w'
    | Exited c w' => Exited c w'
    end.

Definition raise {A} (e : exn) : Py A := fun w => Raised e w.

(** [sys.exit(code)]: [SystemExit] is not an [Exception], so no handler of
    the script catches it. *)
Definition sys_exit {A} (code : Z) : Py A := fun w => Exited code w.

(** [try: body except Exception as e: handler e]. *)
Definition try_except {A} (body : Py A) (handler : exn -> Py A) : Py A :=
  fun w =>
    match body w with
    | Raised e w' => handler e w'
    | r => r
    end.

Declare Scope py_scope.
Delimit Scope py_scope with py.
Notation "x <- m ;; k" := (bind m (fun x => k))
  (at level 100, m at next level, right associativity) : py_scope.
Notation "m ;;; k" := (bind m (fun _ => k))
  (at level 100, right associativity) : py_scope.
Local Open Scope py_scope.

Definition print (line : string) : Py unit :=
  fun w => Done tt {| fs := fs w; console := console w ++ [line]; calls := calls w |}.

Definition log (e : event) : Py unit :=
  fun w => Done tt {| fs := fs w; console := console w; calls := calls w ++ [e] |}.

Definition get_node (path : string) : Py (option node) :=
  fun w => Done (fs w !! path) w.

Definition put_node (path : string) (n : node) : Py unit :=
  fun w => Done tt {| fs := <[path := n]> (fs w); console := console w; calls := calls w |}.

Fixpoint for_each {A} (xs : list A) (body : A -> Py unit) : Py unit :=
  match xs with
  | [] => ret tt
  | x :: rest => body x ;;; for_each rest body
  end.

(** Exit status of the process after running the script's entry point:
    zero on normal completion, the argument of [sys.exit], and one for an
    exception nobody caught. *)
Definition exit_status {A} (r : outcome A) : Z :=
  match r with
  | Done _ _ => 0
  | Raised _ _ => 1
  | Exited c _ => c
  end.

Definition final_world {A} (r : outcome A) : World :=
  match r with
  | Done _ w | Raised _ w | Exited _ w => w
  end.

(** ** Command line *)

(** What [argparse] found on the command line when it returns from
    [parse_args]: the positional arguments and the options that were
    given.  (Usage errors and [-h] end the process inside the library.) *)
Record CommandLine := {
  given_input_file : option string;
  given_output_file : option string;
  given_list_voices : bool;
  given_voice : option string;
  given_language : option string
}.

(** The namespace [args]. *)
Record Namespace := {
  args_input_file : option string;
  args_output_file : option string;
  args_list_voices : bool;
  args_voice : string;
  args_language : string
}.

(** The [default=] of the two string options in [add_argument]. *)
Definition voice_default : string := "en-US-Wavenet-D".
Definition language_default : string := "en-US".

(** Positionals with [nargs='?'] default to [None], a [store_true] flag to
    [False], and the two string options to their [default=]. *)
Definition parse_args (cl : CommandLine) : Namespace :=
  {| args_input_file := given_input_file cl;
     args_output_file := given_output_file cl;
     args_list_voices := given_list_voices cl;
     args_voice := default voice_default (given_voice cl);
     args_language := default language_default (given_language cl) |}.

(** ** The script *)

(** Markers that start the progress lines of [text_to_speech]. *)
Definition mark_ok : string := "‚úì".
Definition mark_err : string := "‚úó".
Definition mark_busy : string := "‚ü≥".

Section Script.

Variable env : Env.

(** *** Built-ins and library calls *)

(** [with open(path, 'r', encoding='utf-8') as f: f.read()] *)
Definition open_read_text (path : string) : Py (list N) :=
  log (EvOpenRead path) ;;;
  nd <- get_node path ;;
  match nd with
  | None => raise (FileNotFoundError path)
  | Some Directory => raise (IsADirectoryError path)
  | Some (RegularFile data readable _) =>
      if readable then
        match Utf8.read_text data with
        | Some t => ret t
        | None => raise UnicodeDecodeError
        end
      else raise (PermissionError path)
  end.

(** [open(path, "wb")]: an existing file is truncated, a missing one is
    created if the host allows it. *)
Definition open_wb (path : string) : Py unit :=
  log (EvOpenWrite path) ;;;
  nd <- get_node path ;;
  match nd with
  | Some Directory => raise (IsADirectoryError path)
  | Some (RegularFile _ readable writable) =>
      if writable then put_node path (RegularFile [] readable writable)
      else raise (PermissionError path)
  | None =>
      match create_fault env path with
      | Some e => raise e
      | None => put_node path (RegularFile [] true true)
      end
  end.

(** [out.write(data)] on the file just opened at [path], up to the close
    at the end of the [with] block. *)
Definition file_write (path : string) (data : list byte) : Py unit :=
  log (EvWrite path data) ;;;
  match write_fault env path data with
  | Some e => raise e
  | None =>
      nd <- get_node path ;;
      match nd with
      | Some (RegularFile old readable writable) =>
          put_node path (RegularFile (old ++ data) readable writable)
      | _ => raise (OSError path)
      end
  end.

(** [texttospeech.TextToSpeechClient()] *)
Definition TextToSpeechClient : Py unit :=
  log EvClientCreate ;;;
  match client_init env with
  | Some e => raise e
  | None => ret tt
  end.

(** [client.list_voices(language_code=...)] *)
Definition client_list_voices (language_code : string) : Py ListVoicesResponse :=
  log (EvListVoices language_code) ;;;
  match api_list_voices env language_code with
  | inl e => raise e
  | inr r => ret r
  end.

(** [client.synthesize_speech(input=..., voice=..., audio_config=...)] *)
Definition client_synthesize_speech (input : SynthesisInput)
    (voice : VoiceSelectionParams) (audio_config : AudioConfig)
    : Py SynthesizeSpeechResponse :=
  log (EvSynthesize input voice audio_config) ;;;
  match api_synthesize_speech env input voice audio_config with
  | inl e => raise e
  | inr r => ret r
  end.

(** [texttospeech.SsmlVoiceGender(v)] *)
Definition SsmlVoiceGender_call (v : Z) : Py SsmlVoiceGender :=
  match SsmlVoiceGender_of_value v with
  | Some g => ret g
  | None => raise (ValueError (pretty v +:+ " is not a valid SsmlVoiceGender"))
  end.

(** [parser.print_help()] *)
Definition print_help : Py unit := print (format_help env).

(** *** [list_voices] *)

Definition list_voices (language_code : string) : Py unit :=
  try_except TextToSpeechClient
    (fun e =>
       print ("Error creating client: " +:+ str env e) ;;;
       sys_exit 1) ;;;
  try_except
    (response <- client_list_voices language_code ;;
     print (PyStr.nl +:+ PyStr.mul "=" 60) ;;;
     print ("Available voices for language: " +:+ language_code) ;;;
     print (PyStr.mul "=" 60 +:+ PyStr.nl) ;;;
     for_each (voices response) (fun voice =>
       print ("Name: " +:+ name voice) ;;;
       print ("Languages: " +:+ PyStr.join ", " (language_codes voice)) ;;;
       g <- SsmlVoiceGender_call (SsmlVoiceGender_value (ssml_gender voice)) ;;
       print ("Gender: " +:+ SsmlVoiceGender_name g) ;;;
       print ("Natural Sample Rate: " +:+
              pretty (natural_sample_rate_hertz voice) +:+ " Hz") ;;;
       print (PyStr.mul "-" 60)))
    (fun e =>
       print ("Error listing voices: " +:+ str env e) ;;;
       sys_exit 1).

(** *** [text_to_speech] *)

Definition text_to_speech (input_file output_file voice_name language_code : string)
    : Py unit :=
  (* Read the text from the input file *)
  text <- try_except
    (text <- open_read_text input_file ;;
     print (mark_ok +:+ " Read " +:+ pretty (length text) +:+
            " characters from '" +:+ input_file +:+ "'") ;;;
     ret text)
    (fun e =>
       match e with
       | FileNotFoundError _ =>
           print (mark_err +:+ " Error: Input file '" +:+ input_file +:+
                  "' not found.") ;;;
           sys_exit 1
       | _ =>
           print (mark_err +:+ " Error reading input file: " +:+ str env e) ;;;
           sys_exit 1
       end) ;;
  (* Create Text-to-Speech client *)
  try_except
    (TextToSpeechClient ;;;
     print (mark_ok +:+ " Connected to Google Cloud Text-to-Speech API"))
    (fun e =>
       print (mark_err +:+ " Error creating client: " +:+ str env e) ;;;
       sys_exit 1) ;;;
  (* Configure synthesis parameters *)
  let synthesis_input := {| text := text |} in
  let voice := {| vsp_language_code := language_code; vsp_name := voice_name |} in
  let audio_config := {| audio_encoding := MP3 |} in
  print (mark_ok +:+ " Using voice: " +:+ voice_name +:+
         " (" +:+ language_code +:+ ")") ;;;
  (* Perform the text-to-speech request *)
  response <- try_except
    (print (mark_busy +:+ " Synthesizing speech...") ;;;
     response <- client_synthesize_speech synthesis_input voice audio_config ;;
     print (mark_ok +:+ " Speech synthesis complete") ;;;
     ret response)
    (fun e =>
       print (mark_err +:+ " Error during synthesis: " +:+ str env e) ;;;
       sys_exit 1) ;;
  (* Write the audio to output file *)
  try_except
    (open_wb output_file ;;;
     file_write output_file (audio_content response) ;;;
     print (mark_ok +:+ " Audio content written to '" +:+ output_file +:+ "'"))
    (fun e =>
       print (mark_err +:+ " Error writing output file: " +:+ str env e) ;;;
       sys_exit 1).

(** *** [main] *)

Definition main (cl : CommandLine) : Py unit :=
  let args := parse_args cl in
  if args_list_voices args then
    list_voices (args_language args)
  else if negb (PyStr.truthy (args_input_file args))
          || negb (PyStr.truthy (args_output_file args)) then
    print_help ;;;
    sys_exit 1
  else
    (* both positionals are non-empty strings in this branch *)
    text_to_speech
      (default "" (args_input_file args))
      (default "" (args_output_file args))
      (args_voice args)
      (args_language args).

End Script.

(** ** Derived notions used in the statements *)

(** The text a run reads from [path]: the file is there, it is a regular
    file that may be read, and its bytes are well-formed UTF-8. *)
Definition input_text (w : World) (path : string) : option (list N) :=
  match fs w !! path with
  | Some (RegularFile data true _) => Utf8.read_text data
  | _ => None
  end.

(** [open(path, "wb")] goes through: [path] is a writable regular file, or
    it is free and the host lets it be created. *)
Definition openable_wb (env : Env) (w : World) (path : string) : bool :=
  match fs w !! path with
  | Some (RegularFile _ _ writable) => writable
  | Some Directory => false
  | None => match create_fault env path with None => true | Some _ => false end
  end.

(** The request that [text_to_speech] sends for a text. *)
Definition synthesis_call (txt : list N) (voice_name language_code : string) : event :=
  EvSynthesize {| text := txt |}
    {| vsp_language_code := language_code; vsp_name := voice_name |}
    {| audio_encoding := MP3 |}.

(** The world after more console lines and more calls, files untouched. *)
Definition advance (w : World) (lines : list string) (evs : list event) : World :=
  {| fs := fs w; console := console w ++ lines; calls := calls w ++ evs |}.

(** An event that touches the output side of the file system. *)
Definition is_write_step (e : event) : bool :=
  match e with
  | EvOpenWrite _ | EvWrite _ _ => true
  | _ => false
  end.

(** *** Report of the listing flow *)

Definition divider : string := PyStr.mul "-" 60.

Definition banner (language_code : string) : list string :=
  [ PyStr.nl +:+ PyStr.mul "=" 60;
    "Available voices for language: " +:+ language_code;
    PyStr.mul "=" 60 +:+ PyStr.nl ].

Definition voice_record (v : Voice) : list string :=
  [ "Name: " +:+ name v;
    "Languages: " +:+ PyStr.join ", " (language_codes v);
    "Gender: " +:+ SsmlVoiceGender_name (ssml_gender v);
    "Natural Sample Rate: " +:+ pretty (natural_sample_rate_hertz v) +:+ " Hz";
    divider ].





(** The exception is a [FileNotFoundError]. *)
Definition is_not_found (e : exn) : bool :=
  match e with FileNotFoundError _ => true | _ => false end.

(** *** The lines and the last block of [text_to_speech] *)

Section Stages.

Variable env : Env.
Variables input_file output_file voice_name language_code : string.

(** The progress lines of a run. *)
Definition line_read (txt : list N) : string :=
  mark_ok +:+ " Read " +:+ pretty (length txt) +:+
  " characters from '" +:+ input_file +:+ "'".
Definition line_connected : string :=
  mark_ok +:+ " Connected to Google Cloud Text-to-Speech API".
Definition line_voice : string :=
  mark_ok +:+ " Using voice: " +:+ voice_name +:+ " (" +:+ language_code +:+ ")".
Definition line_busy : string := mark_busy +:+ " Synthesizing speech...".
Definition line_complete : string := mark_ok +:+ " Speech synthesis complete".
Definition line_written : string :=
  mark_ok +:+ " Audio content written to '" +:+ output_file +:+ "'".

(** The last block of [text_to_speech]. *)
Definition write_stage (response : SynthesizeSpeechResponse) : Py unit :=
  try_except
    (open_wb env output_file ;;;
     file_write env output_file (audio_content response) ;;;
     print line_written)
    (fun e =>
       print (mark_err +:+ " Error writing output file: " +:+ str env e) ;;;
     sys_exit 1).

End Stages.

(** *** The calls of a run, in order *)

(** The calls of a complete synthesis run. *)
Definition pipeline (input_file output_file voice_name language_code : string)
    (txt : list N) (payload : list byte) : list event :=
  [ EvOpenRead input_file; EvClientCreate;
    synthesis_call txt voice_name language_code;
    EvOpenWrite output_file; EvWrite output_file payload ].

(** *** Where the remote service can fail *)

(** A failure of the remote service: the flow it happens in, with the
    arguments of the flow, and the stage. *)
Inductive failure_site :=
| ListingConnection (language_code : string)
| ListingQuery (language_code : string)
| SynthesisConnection (input_file output_file voice_name language_code : string)
| SynthesisCall (input_file output_file voice_name language_code : string).

Definition flow_of (env : Env) (site : failure_site) : Py unit :=
  match site with
  | ListingConnection lc | ListingQuery lc => list_voices env lc
  | SynthesisConnection i o v l | SynthesisCall i o v l => text_to_speech env i o v l
  end.

(** The service raises [e] at [site] in a run started in [w]: the stages
    before went through and the call of the stage raises. *)
Definition fails_at (env : Env) (site : failure_site) (w : World) (e : exn) : Prop :=
  match site with
  | ListingConnection _ => client_init env = Some e
  | ListingQuery lc => client_init env = None /\ api_list_voices env lc = inl e
  | SynthesisConnection i _ _ _ =>
      is_Some (input_text w i) /\ client_init env = Some e
  | SynthesisCall i _ v l =>
      exists txt, input_text w i = Some txt /\ client_init env = None /\
        api_synthesize_speech env {| text := txt |}
          {| vsp_language_code := l; vsp_name := v |}
          {| audio_encoding := MP3 |} = inl e
  end.

(** The calls of the flow up to the failing one. *)
Definition calls_until (site : failure_site) (w : World) : list event :=
  match site with
  | ListingConnection _ => [EvClientCreate]
  | ListingQuery lc => [EvClientCreate; EvListVoices lc]
  | SynthesisConnection i _ _ _ => [EvOpenRead i; EvClientCreate]
  | SynthesisCall i _ v l =>
      [EvOpenRead i; EvClientCreate;
       synthesis_call (default [] (input_text w i)) v l]
  end.

(** The line that reports the failure. *)
Definition failure_report (env : Env) (site : failure_site) (e : exn) : string :=
  match site with
  | ListingConnection _ => "Error creating client: " +:+ str env e
  | ListingQuery _ => "Error listing voices: " +:+ str env e
  | SynthesisConnection _ _ _ _ => mark_err +:+ " Error creating client: " +:+ str env e
  | SynthesisCall _ _ _ _ => mark_err +:+ " Error during synthesis: " +:+ str env e
  end.

(** What an event passes to the remote service as voice name and as
    language code. *)
Definition voice_sent (ev : event) : option string :=
  match ev with
  | EvSynthesize _ vsp _ => Some (vsp_name vsp)
  | _ => None
  end.

Definition language_sent (ev : event) : option string :=
  match ev with
  | EvSynthesize _ vsp _ => Some (vsp_language_code vsp)
  | EvListVoices lc => Some lc
  | _ => None
  end.

(** The outcome of the help branch of [main]. *)
Definition usage_exit (env : Env) (w : World) : outcome unit :=
  Exited 1 {| fs := fs w; console := console w ++ [format_help env]; calls := calls w |}.

(** *** Dispatch in [main] *)

(** A positional argument that the test [not args.x] takes as absent. *)
Definition missing_or_empty (x : option string) : Prop := x = None \/ x = Some "".

(** The command line with another value, or none, for [--voice]. *)
Definition with_voice (v : option string) (cl : CommandLine) : CommandLine :=
  {| given_input_file := given_input_file cl;
     given_output_file := given_output_file cl;
     given_list_voices := given_list_voices cl;
     given_voice := v;
     given_language := given_language cl |}.

(** The command line without its positional arguments. *)
Definition without_positionals (cl : CommandLine) : CommandLine :=
  {| given_input_file := None;
     given_output_file := None;
     given_list_voices := given_list_voices cl;
     given_voice := given_voice cl;
     given_language := given_language cl |}.

(** An event carries the voice [v] and the language [l] if it carries any. *)
Definition carries (v l : string) (ev : event) : Prop :=
  (forall v', voice_sent ev = Some v' -> v' = v) /\
  (forall l', language_sent ev = Some l' -> l' = l).

(** ** Sample environments *)

Module Sample.

Definition render (e : exn) : string :=
  match e with
  | FileNotFoundError f => "[Errno 2] No such file or directory: '" +:+ f +:+ "'"
  | IsADirectoryError f => "[Errno 21] Is a directory: '" +:+ f +:+ "'"
  | PermissionError f => "[Errno 13] Permission denied: '" +:+ f +:+ "'"
  | OSError d => d
  | UnicodeDecodeError => "'utf-8' codec can't decode"
  | ValueError d => d
  | ServiceError d => d
  end.

Definition wavenet_d : Voice :=
  {| name := "en-US-Wavenet-D"; language_codes := ["en-US"];
     ssml_gender := MALE; natural_sample_rate_hertz := 24000 |}.

Definition neural_f : Voice :=
  {| name := "en-GB-Neural2-F"; language_codes := ["en-GB"; "en-US"];
     ssml_gender := FEMALE; natural_sample_rate_hertz := 48000 |}.

Definition mp3 : list byte := [x49; x44; x33; x04].

(** A service that answers every call. *)
Definition up : Env :=
  {| str := render;
     format_help := "usage: s2t-gcp.py [-h] [--list-voices] [--voice VOICE] [--language LANGUAGE] [input_file] [output_file]";
     create_fault := fun _ => None;
     write_fault := fun _ _ => None;
     client_init := None;
     api_list_voices := fun _ => inr {| voices := [wavenet_d; neural_f] |};
     api_synthesize_speech := fun _ _ _ => inr {| audio_content := mp3 |} |}.

(** No credentials: the client cannot be created. *)
Definition no_credentials : Env :=
  {| str := render; format_help := format_help up;
     create_fault := fun _ => None; write_fault := fun _ _ => None;
     client_init := Some (ServiceError "Your default credentials were not found.");
     api_list_voices := api_list_voices up;
     api_synthesize_speech := api_synthesize_speech up |}.

(** The service refuses both calls. *)
Definition refusing : Env :=
  {| str := render; format_help := format_help up;
     create_fault := fun _ => None; write_fault := fun _ _ => None;
     client_init := None;
     api_list_voices := fun _ => inl (ServiceError "503 Service Unavailable");
     api_synthesize_speech := fun _ _ _ => inl (ServiceError "400 Voice does not exist") |}.

(** A file system with a text file, an old audio file and a directory. *)
Definition disk : gmap string node :=
  {[ "in.txt" := RegularFile ["H"%byte; "i"%byte] true true;
     "old.mp3" := RegularFile [xff; xfb; x90] true true;
     "music" := Directory;
     "locked.txt" := RegularFile ["n"%byte; "o"%byte] false false ]}.

Definition start : World := {| fs := disk; console := []; calls := [] |}.

Definition cmd (i o : option string) (lv : bool) (v l : option string) : CommandLine :=
  {| given_input_file := i; given_output_file := o; given_list_voices := lv;
     given_voice := v; given_language := l |}.

End Sample.

(** ** Every way a synthesis run can end *)

(** An event that opens or writes a file. *)
Definition is_file_step (e : event) : bool :=
  match e with
  | EvOpenRead _ | EvOpenWrite _ | EvWrite _ _ => true
  | _ => false
  end.

(** The payload the service returns for a text, if it returns one. *)
Definition returned_payload (env : Env) (txt : list N)
    (voice_name language_code : string) : list byte :=
  match api_synthesize_speech env {| text := txt |}
          {| vsp_language_code := language_code; vsp_name := voice_name |}
          {| audio_encoding := MP3 |} with
  | inr r => audio_content r
  | inl _ => []
  end.

(** How many steps of the pipeline a run makes: it stops at the first step
    that fails, and writes once the output is open. *)
Definition steps_made (env : Env) (w : World)
    (input_file output_file voice_name language_code : string) : nat :=
  match input_text w input_file with
  | None => 1
  | Some txt =>
      match client_init env with
      | Some _ => 2
      | None =>
          match api_synthesize_speech env {| text := txt |}
                  {| vsp_language_code := language_code; vsp_name := voice_name |}
                  {| audio_encoding := MP3 |} with
          | inl _ => 3
          | inr _ => if openable_wb env w output_file then 5 else 4
          end
      end
  end%nat.

(** The six ways [text_to_speech] ends, one per [try] block that can fail
    and one for the complete run, with what each leaves behind. *)
Inductive synthesis_run (env : Env) (i o v l : string) (w : World)
    : outcome unit -> Prop :=
| RunReadFailed w' :
    input_text w i = None ->
    fs w' = fs w ->
    calls w' = calls w ++ [EvOpenRead i] ->
    synthesis_run env i o v l w (Exited 1 w')
| RunNoClient txt e w' :
    input_text w i = Some txt ->
    client_init env = Some e ->
    fs w' = fs w ->
    calls w' = calls w ++ [EvOpenRead i; EvClientCreate] ->
    synthesis_run env i o v l w (Exited 1 w')
| RunRefused txt e w' :
    input_text w i = Some txt ->
    client_init env = None ->
    api_synthesize_speech env {| text := txt |}
      {| vsp_language_code := l; vsp_name := v |}
      {| audio_encoding := MP3 |} = inl e ->
    fs w' = fs w ->
    calls w' = calls w ++ [EvOpenRead i; EvClientCreate; synthesis_call txt v l] ->
    synthesis_run env i o v l w (Exited 1 w')
| RunOutputClosed txt resp w' :
    input_text w i = Some txt ->
    client_init env = None ->
    api_synthesize_speech env {| text := txt |}
      {| vsp_language_code := l; vsp_name := v |}
      {| audio_encoding := MP3 |} = inr resp ->
    openable_wb env w o = false ->
    fs w' = fs w ->
    calls w' = calls w ++
      [EvOpenRead i; EvClientCreate; synthesis_call txt v l; EvOpenWrite o] ->
    synthesis_run env i o v l w (Exited 1 w')
| RunWriteFault txt resp e w' :
    input_text w i = Some txt ->
    client_init env = None ->
    api_synthesize_speech env {| text := txt |}
      {| vsp_language_code := l; vsp_name := v |}
      {| audio_encoding := MP3 |} = inr resp ->
    openable_wb env w o = true ->
    write_fault env o (audio_content resp) = Some e ->
    (forall p, p <> o -> fs w' !! p = fs w !! p) ->
    calls w' = calls w ++ pipeline i o v l txt (audio_content resp) ->
    synthesis_run env i o v l w (Exited 1 w')
| RunComplete txt resp w' :
    input_text w i = Some txt ->
    client_init env = None ->
    api_synthesize_speech env {| text := txt |}
      {| vsp_language_code := l; vsp_name := v |}
      {| audio_encoding := MP3 |} = inr resp ->
    openable_wb env w o = true ->
    write_fault env o (audio_content resp) = None ->
    file_content w' o = Some (audio_content resp) ->
    (forall p, p <> o -> fs w' !! p = fs w !! p) ->
    calls w' = calls w ++ pipeline i o v l txt (audio_content resp) ->
    console w' = console w ++
      [line_read i txt; line_connected; line_voice v l; line_busy; line_complete;
       line_written o] ->
    synthesis_run env i o v l w (Done tt w').

(** More sample worlds: an empty text file beside the files of
    [Sample.disk]. *)
Module Corner.

Definition disk : gmap string node :=
  <["empty.txt" := RegularFile [] true true]> Sample.disk.

Definition start : World := {| fs := disk; console := []; calls := [] |}.

End Corner.

(** ** Properties *)

(** *** The decoder on small inputs *)

Example decode_ascii : Utf8.read_text ["H"%byte; "i"%byte] = Some [72%N; 105%N].
Proof. reflexivity. Qed.

Example decode_euro : Utf8.decode [xe2; x82; xac] = Some [8364%N].
Proof. reflexivity. Qed.

Example decode_overlong : Utf8.decode [xc0; x80] = None.
Proof. reflexivity. Qed.

Example decode_surrogate : Utf8.decode [xed; xa0; x80] = None.
Proof. reflexivity. Qed.

Example newlines_crlf : Utf8.newlines [97%N; 13%N; 10%N; 98%N; 13%N] = [97%N; 10%N; 98%N; 10%N].
Proof. reflexivity. Qed.

(** *** Worlds *)

Lemma advance_nil w : advance w [] [] = w.
Proof. destruct w. unfold advance. simpl. by rewrite !app_nil_r. Qed.

Lemma advance_advance w l1 e1 l2 e2 :
  advance (advance w l1 e1) l2 e2 = advance w (l1 ++ l2) (e1 ++ e2).
Proof. unfold advance. simpl. by rewrite !app_assoc. Qed.

Lemma fs_advance w l e : fs (advance w l e) = fs w.
Proof. reflexivity. Qed.

Lemma input_text_advance w l e path : input_text (advance w l e) path = input_text w path.
Proof. reflexivity. Qed.

Lemma openable_wb_advance env w l e path :
  openable_wb env (advance w l e) path = openable_wb env w path.
Proof. reflexivity. Qed.

(** *** Steps of the monad *)

Lemma print_spec line w : print line w = Done tt (advance w [line] []).
Proof. unfold print, advance. by rewrite app_nil_r. Qed.

Lemma log_spec e w : log e w = Done tt (advance w [] [e]).
Proof. unfold log, advance. by rewrite app_nil_r. Qed.

Lemma bind_done {A B} (m : Py A) (k : A -> Py B) w a w' :
  m w = Done a w' -> bind m k w = k a w'.
Proof. unfold bind. by intros ->. Qed.

Lemma bind_raised {A B} (m : Py A) (k : A -> Py B) w e w' :
  m w = Raised e w' -> bind m k w = Raised e w'.
Proof. unfold bind. by intros ->. Qed.

Lemma bind_exited {A B} (m : Py A) (k : A -> Py B) w c w' :
  m w = Exited c w' -> bind m k w = Exited c w'.
Proof. unfold bind. by intros ->. Qed.

Lemma try_done {A} (body : Py A) h w a w' :
  body w = Done a w' -> try_except body h w = Done a w'.
Proof. unfold try_except. by intros ->. Qed.

Lemma try_raised {A} (body : Py A) h w e w' :
  body w = Raised e w' -> try_except body h w = h e w'.
Proof. unfold try_except. by intros ->. Qed.

Lemma try_exited {A} (body : Py A) h w c w' :
  body w = Exited c w' -> try_except body h w = Exited c w'.
Proof. unfold try_except. by intros ->. Qed.

(** A handler of the script: one line on the console, then [sys.exit(1)]. *)
Lemma report_and_exit {A} line w :
  bind (print line) (fun _ => sys_exit (A := A) 1) w = Exited 1 (advance w [line] []).
Proof. by rewrite (bind_done _ _ _ _ _ (print_spec line w)). Qed.

Section Runtime.

Variable env : Env.

(** *** Reading the input *)

Lemma open_read_text_ok path w txt :
  input_text w path = Some txt ->
  open_read_text path w = Done txt (advance w [] [EvOpenRead path]).
Proof.
  unfold input_text, open_read_text. intros H.
  rewrite (bind_done _ _ _ _ _ (log_spec _ w)).
  unfold bind, get_node. rewrite fs_advance.
  destruct (fs w !! path) as [[data [] wr|]|]; try discriminate.
  by rewrite H.
Qed.

Lemma open_read_text_missing path w :
  fs w !! path = None ->
  open_read_text path w = Raised (FileNotFoundError path) (advance w [] [EvOpenRead path]).
Proof.
  unfold open_read_text. intros H.
  rewrite (bind_done _ _ _ _ _ (log_spec _ w)).
  unfold bind, get_node. rewrite fs_advance. by rewrite H.
Qed.

(** Every other failure of the read raises something that is not
    [FileNotFoundError]. *)

Lemma open_read_text_unreadable path w nd :
  fs w !! path = Some nd ->
  input_text w path = None ->
  exists e, is_not_found e = false /\
    open_read_text path w = Raised e (advance w [] [EvOpenRead path]).
Proof.
  unfold input_text, open_read_text. intros Hnd H.
  rewrite (bind_done _ _ _ _ _ (log_spec _ w)).
  unfold bind, get_node. rewrite fs_advance, Hnd in *.
  destruct nd as [data [] wr|].
  - rewrite H. by exists UnicodeDecodeError.
  - by exists (PermissionError path).
  - by exists (IsADirectoryError path).
Qed.

(** *** Writing the output *)

(** Opening for writing leaves an empty file at [path], whatever was
    there, and touches no other path. *)
Lemma open_wb_ok path w :
  openable_wb env w path = true ->
  exists w', open_wb env path w = Done tt w' /\
    file_content w' path = Some [] /\
    (forall p, p <> path -> fs w' !! p = fs w !! p) /\
    console w' = console w /\
    calls w' = calls w ++ [EvOpenWrite path].
Proof.
  unfold openable_wb, open_wb. intros H.
  rewrite (bind_done _ _ _ _ _ (log_spec _ w)).
  unfold bind, get_node. rewrite fs_advance.
  destruct (fs w !! path) as [[data rd wr|]|] eqn:Hnd; try discriminate.
  - rewrite H. eexists. split; [reflexivity|].
    unfold file_content. simpl. rewrite lookup_insert_eq.
    repeat split; [|by rewrite app_nil_r].
    intros p Hp. by rewrite lookup_insert_ne.
  - destruct (create_fault env path); [discriminate|].
    eexists. split; [reflexivity|].
    unfold file_content. simpl. rewrite lookup_insert_eq.
    repeat split; [|by rewrite app_nil_r].
    intros p Hp. by rewrite lookup_insert_ne.
Qed.

Lemma open_wb_fail path w :
  openable_wb env w path = false ->
  exists e, open_wb env path w = Raised e (advance w [] [EvOpenWrite path]).
Proof.
  unfold openable_wb, open_wb. intros H.
  rewrite (bind_done _ _ _ _ _ (log_spec _ w)).
  unfold bind, get_node. rewrite fs_advance.
  destruct (fs w !! path) as [[data rd wr|]|] eqn:Hnd.
  - rewrite H. by eexists.
  - by eexists.
  - destruct (create_fault env path); [by eexists | discriminate].
Qed.

(** Writing to a file that holds [old] leaves [old ++ data]. *)
Lemma file_write_ok path data w old :
  write_fault env path data = None ->
  file_content w path = Some old ->
  exists w', file_write env path data w = Done tt w' /\
    file_content w' path = Some (old ++ data) /\
    (forall p, p <> path -> fs w' !! p = fs w !! p) /\
    console w' = console w /\
    calls w' = calls w ++ [EvWrite path data].
Proof.
  unfold file_write, file_content. intros Hf H.
  rewrite (bind_done _ _ _ _ _ (log_spec _ w)). rewrite Hf.
  unfold bind, get_node. rewrite fs_advance.
  destruct (fs w !! path) as [[d rd wr|]|] eqn:Hnd; try discriminate.
  injection H as ->.
  eexists. split; [reflexivity|]. simpl. rewrite lookup_insert_eq.
  repeat split; [|by rewrite app_nil_r].
  intros p Hp. by rewrite lookup_insert_ne.
Qed.

(** *** Calls of the client *)

Lemma client_up w :
  client_init env = None ->
  TextToSpeechClient env w = Done tt (advance w [] [EvClientCreate]).
Proof.
  unfold TextToSpeechClient. intros H.
  rewrite (bind_done _ _ _ _ _ (log_spec _ w)). by rewrite H.
Qed.

Lemma client_down w e :
  client_init env = Some e ->
  TextToSpeechClient env w = Raised e (advance w [] [EvClientCreate]).
Proof.
  unfold TextToSpeechClient. intros H.
  rewrite (bind_done _ _ _ _ _ (log_spec _ w)). by rewrite H.
Qed.

Lemma list_voices_call lc w :
  client_list_voices env lc w =
  match api_list_voices env lc with
  | inl e => Raised e (advance w [] [EvListVoices lc])
  | inr r => Done r (advance w [] [EvListVoices lc])
  end.
Proof.
  unfold client_list_voices.
  rewrite (bind_done _ _ _ _ _ (log_spec _ w)).
  by destruct (api_list_voices env lc).
Qed.

Lemma synthesize_call i v c w :
  client_synthesize_speech env i v c w =
  match api_synthesize_speech env i v c with
  | inl e => Raised e (advance w [] [EvSynthesize i v c])
  | inr r => Done r (advance w [] [EvSynthesize i v c])
  end.
Proof.
  unfold client_synthesize_speech.
  rewrite (bind_done _ _ _ _ _ (log_spec _ w)).
  by destruct (api_synthesize_speech env i v c).
Qed.

(** Every member is found again by its value, so the conversion in the
    loop of [list_voices] does not raise. *)
Lemma SsmlVoiceGender_roundtrip g :
  SsmlVoiceGender_of_value (SsmlVoiceGender_value g) = Some g.
Proof. by destruct g. Qed.

Lemma SsmlVoiceGender_call_member g w :
  SsmlVoiceGender_call (SsmlVoiceGender_value g) w = Done g w.
Proof. unfold SsmlVoiceGender_call. by rewrite SsmlVoiceGender_roundtrip. Qed.

End Runtime.

(** *** The synthesis flow, stage by stage *)

Section Synthesis.

Variable env : Env.
Variables input_file output_file voice_name language_code : string.

Lemma read_stage_missing w :
  fs w !! input_file = None ->
  text_to_speech env input_file output_file voice_name language_code w = Exited 1
    (advance w [mark_err +:+ " Error: Input file '" +:+ input_file +:+ "' not found."]
               [EvOpenRead input_file]).
Proof.
  intros H. unfold text_to_speech.
  apply bind_exited.
  erewrite try_raised; [|apply bind_raised, open_read_text_missing, H].
  cbv beta iota. by rewrite report_and_exit, advance_advance.
Qed.

Lemma read_stage_unreadable w nd :
  fs w !! input_file = Some nd ->
  input_text w input_file = None ->
  exists e, is_not_found e = false /\
    text_to_speech env input_file output_file voice_name language_code w = Exited 1
      (advance w [mark_err +:+ " Error reading input file: " +:+ str env e]
                 [EvOpenRead input_file]).
Proof.
  intros Hnd H. destruct (open_read_text_unreadable _ _ _ Hnd H) as (e & He & Hr).
  exists e. split; [done|]. unfold text_to_speech.
  apply bind_exited.
  erewrite try_raised; [|apply bind_raised, Hr].
  destruct e; try discriminate; cbv beta iota;
    by rewrite report_and_exit, advance_advance.
Qed.

Lemma read_stage_ok w txt (k : list N -> Py unit) :
  input_text w input_file = Some txt ->
  bind (try_except
    (text <- open_read_text input_file ;;
     print (mark_ok +:+ " Read " +:+ pretty (length text) +:+
            " characters from '" +:+ input_file +:+ "'") ;;;
     ret text)
    (fun e =>
       match e with
       | FileNotFoundError _ =>
           print (mark_err +:+ " Error: Input file '" +:+ input_file +:+
                  "' not found.") ;;;
           sys_exit 1
       | _ =>
           print (mark_err +:+ " Error reading input file: " +:+ str env e) ;;;
           sys_exit 1
       end)) k w
  = k txt (advance w [line_read input_file txt] [EvOpenRead input_file]).
Proof.
  intros H. apply bind_done, try_done.
  rewrite (bind_done _ _ _ _ _ (open_read_text_ok _ _ _ H)).
  rewrite (bind_done _ _ _ _ _ (print_spec _ _)).
  by rewrite advance_advance.
Qed.

Lemma connect_stage_down w txt e :
  input_text w input_file = Some txt ->
  client_init env = Some e ->
  text_to_speech env input_file output_file voice_name language_code w = Exited 1
    (advance w [line_read input_file txt; mark_err +:+ " Error creating client: " +:+ str env e]
               [EvOpenRead input_file; EvClientCreate]).
Proof.
  intros Hr Hc. unfold text_to_speech. rewrite (read_stage_ok _ _ _ Hr).
  apply bind_exited.
  erewrite try_raised; [|apply bind_raised, client_down, Hc].
  cbv beta. by rewrite report_and_exit, !advance_advance.
Qed.

Lemma synthesis_stage_refused w txt e :
  input_text w input_file = Some txt ->
  client_init env = None ->
  api_synthesize_speech env {| text := txt |}
    {| vsp_language_code := language_code; vsp_name := voice_name |}
    {| audio_encoding := MP3 |} = inl e ->
  text_to_speech env input_file output_file voice_name language_code w = Exited 1
    (advance w [line_read input_file txt; line_connected; (line_voice voice_name language_code); line_busy;
                mark_err +:+ " Error during synthesis: " +:+ str env e]
               [EvOpenRead input_file; EvClientCreate;
                synthesis_call txt voice_name language_code]).
Proof.
  intros Hr Hc Hs. unfold text_to_speech. rewrite (read_stage_ok _ _ _ Hr).
  erewrite bind_done; cycle 1.
  { apply try_done. erewrite bind_done by apply client_up, Hc. apply print_spec. }
  rewrite !advance_advance.
  erewrite bind_done by apply print_spec. rewrite advance_advance.
  apply bind_exited.
  erewrite try_raised; cycle 1.
  { erewrite bind_done by apply print_spec. apply bind_raised.
    rewrite synthesize_call, Hs. reflexivity. }
  cbv beta. by rewrite report_and_exit, !advance_advance.
Qed.

Lemma synthesis_stage_ok w txt resp :
  input_text w input_file = Some txt ->
  client_init env = None ->
  api_synthesize_speech env {| text := txt |}
    {| vsp_language_code := language_code; vsp_name := voice_name |}
    {| audio_encoding := MP3 |} = inr resp ->
  text_to_speech env input_file output_file voice_name language_code w = write_stage env output_file resp
    (advance w [line_read input_file txt; line_connected; (line_voice voice_name language_code); line_busy; line_complete]
               [EvOpenRead input_file; EvClientCreate;
                synthesis_call txt voice_name language_code]).
Proof.
  intros Hr Hc Hs. unfold text_to_speech. rewrite (read_stage_ok _ _ _ Hr).
  erewrite bind_done; cycle 1.
  { apply try_done. erewrite bind_done by apply client_up, Hc. apply print_spec. }
  rewrite !advance_advance.
  erewrite bind_done by apply print_spec. rewrite advance_advance.
  erewrite bind_done; cycle 1.
  { apply try_done. erewrite bind_done by apply print_spec.
    erewrite bind_done; cycle 1.
    { rewrite synthesize_call, Hs. reflexivity. }
    erewrite bind_done by apply print_spec. reflexivity. }
  by rewrite !advance_advance.
Qed.

(** The write block on its own: with the output path open for writing
    and the write going through, the file holds the payload and nothing
    else. *)
Lemma write_stage_ok w resp :
  openable_wb env w output_file = true ->
  write_fault env output_file (audio_content resp) = None ->
  exists w', write_stage env output_file resp w = Done tt w' /\
    file_content w' output_file = Some (audio_content resp) /\
    (forall p, p <> output_file -> fs w' !! p = fs w !! p) /\
    console w' = console w ++ [(line_written output_file)] /\
    calls w' = calls w ++ [EvOpenWrite output_file;
                           EvWrite output_file (audio_content resp)].
Proof.
  intros Ho Hw.
  destruct (open_wb_ok env _ _ Ho) as (w1 & H1 & Hc1 & Hfs1 & Hcon1 & Hcalls1).
  destruct (file_write_ok env _ _ _ _ Hw Hc1) as (w2 & H2 & Hc2 & Hfs2 & Hcon2 & Hcalls2).
  exists (advance w2 [(line_written output_file)] []). split.
  - unfold write_stage. apply try_done.
    rewrite (bind_done _ _ _ _ _ H1), (bind_done _ _ _ _ _ H2). apply print_spec.
  - unfold file_content in *. simpl. rewrite app_nil_r, Hcon2, Hcon1, Hcalls2, Hcalls1.
    rewrite <- app_assoc. repeat split; [done| |done..].
    intros p Hp. by rewrite Hfs2, Hfs1.
Qed.

Lemma write_stage_closed w resp :
  openable_wb env w output_file = false ->
  exists w', write_stage env output_file resp w = Exited 1 w' /\
    fs w' = fs w /\ calls w' = calls w ++ [EvOpenWrite output_file].
Proof.
  intros Ho. destruct (open_wb_fail env _ _ Ho) as (e & He).
  eexists. split.
  - unfold write_stage. erewrite try_raised; [|apply bind_raised, He].
    cbv beta. by rewrite report_and_exit, advance_advance.
  - done.
Qed.

Lemma write_stage_fault w resp e :
  openable_wb env w output_file = true ->
  write_fault env output_file (audio_content resp) = Some e ->
  exists w', write_stage env output_file resp w = Exited 1 w' /\
    file_content w' output_file = Some [] /\
    calls w' = calls w ++ [EvOpenWrite output_file;
                           EvWrite output_file (audio_content resp)].
Proof.
  intros Ho Hw.
  destruct (open_wb_ok env _ _ Ho) as (w1 & H1 & Hc1 & _ & _ & Hcalls1).
  eexists. split.
  - unfold write_stage. erewrite try_raised; cycle 1.
    { rewrite (bind_done _ _ _ _ _ H1). apply bind_raised.
      unfold file_write. rewrite (bind_done _ _ _ _ _ (log_spec _ _)).
      rewrite Hw. reflexivity. }
    cbv beta. by rewrite report_and_exit, advance_advance.
  - split; [done|]. simpl. by rewrite Hcalls1, <- app_assoc.
Qed.

End Synthesis.

(** *** The listing flow *)

Section Listing.

Variable env : Env.

(** The body of the loop prints the record of one voice. *)
Lemma voice_loop vs w :
  for_each vs (fun voice =>
    print ("Name: " +:+ name voice) ;;;
    print ("Languages: " +:+ PyStr.join ", " (language_codes voice)) ;;;
    g <- SsmlVoiceGender_call (SsmlVoiceGender_value (ssml_gender voice)) ;;
    print ("Gender: " +:+ SsmlVoiceGender_name g) ;;;
    print ("Natural Sample Rate: " +:+
           pretty (natural_sample_rate_hertz voice) +:+ " Hz") ;;;
    print (PyStr.mul "-" 60)) w
  = Done tt (advance w (concat (map voice_record vs)) []).
Proof.
  revert w. induction vs as [|v vs IH]; intros w.
  - simpl. unfold ret. by rewrite advance_nil.
  - cbn [for_each map concat].
    erewrite bind_done; cycle 1.
    { erewrite bind_done by apply print_spec.
      erewrite bind_done by apply print_spec.
      erewrite bind_done by apply SsmlVoiceGender_call_member.
      erewrite bind_done by apply print_spec.
      erewrite bind_done by apply print_spec.
      apply print_spec. }
    rewrite IH, !advance_advance. reflexivity.
Qed.

Lemma listing_connect_down lc w e :
  client_init env = Some e ->
  list_voices env lc w =
  Exited 1 (advance w ["Error creating client: " +:+ str env e] [EvClientCreate]).
Proof.
  intros Hc. unfold list_voices. apply bind_exited.
  erewrite try_raised by apply client_down, Hc.
  cbv beta. by rewrite report_and_exit, advance_advance.
Qed.

Lemma listing_query_refused lc w e :
  client_init env = None ->
  api_list_voices env lc = inl e ->
  list_voices env lc w =
  Exited 1 (advance w ["Error listing voices: " +:+ str env e]
                      [EvClientCreate; EvListVoices lc]).
Proof.
  intros Hc Hq. unfold list_voices.
  erewrite bind_done by apply try_done, client_up, Hc.
  erewrite try_raised; cycle 1.
  { apply bind_raised. rewrite list_voices_call, Hq. reflexivity. }
  cbv beta. by rewrite report_and_exit, !advance_advance.
Qed.

Lemma listing_ok lc w resp :
  client_init env = None ->
  api_list_voices env lc = inr resp ->
  list_voices env lc w =
  Done tt (advance w (banner lc ++ concat (map voice_record (voices resp)))
                     [EvClientCreate; EvListVoices lc]).
Proof.
  intros Hc Hq. unfold list_voices.
  erewrite bind_done by apply try_done, client_up, Hc.
  apply try_done.
  erewrite bind_done; cycle 1.
  { rewrite list_voices_call, Hq. reflexivity. }
  do 3 erewrite bind_done by apply print_spec.
  rewrite voice_loop, !advance_advance. reflexivity.
Qed.

End Listing.

(** Counting the divider in a report. *)










(** *** The calls of a run, in order *)

(** Whatever happens, the calls of [text_to_speech] are an initial part of
    the pipeline: each step comes after the ones before it went through. *)
Lemma synthesis_calls_prefix env i o v l w :
  exists txt payload evs,
    calls (final_world (text_to_speech env i o v l w)) = calls w ++ evs /\
    evs `prefix_of` pipeline i o v l txt payload.
Proof.
  destruct (input_text w i) as [txt|] eqn:Hr.
  2:{ exists [], [], [EvOpenRead i]. split; [|by eexists].
      destruct (fs w !! i) as [nd|] eqn:Hnd.
      - destruct (read_stage_unreadable env i o v l w nd Hnd Hr) as (e & _ & ->). done.
      - by rewrite (read_stage_missing env i o v l w Hnd). }
  destruct (client_init env) as [e|] eqn:Hc.
  { exists txt, [], [EvOpenRead i; EvClientCreate]. split; [|by eexists].
    by rewrite (connect_stage_down env i o v l w txt e Hr Hc). }
  destruct (api_synthesize_speech env {| text := txt |}
              {| vsp_language_code := l; vsp_name := v |}
              {| audio_encoding := MP3 |}) as [e|resp] eqn:Hs.
  { exists txt, [], [EvOpenRead i; EvClientCreate; synthesis_call txt v l].
    split; [|by eexists].
    by rewrite (synthesis_stage_refused env i o v l w txt e Hr Hc Hs). }
  rewrite (synthesis_stage_ok env i o v l w txt resp Hr Hc Hs).
  set (w3 := advance w _ _).
  exists txt, (audio_content resp).
  destruct (openable_wb env w3 o) eqn:Ho.
  2:{ destruct (write_stage_closed env o w3 resp Ho) as (w' & -> & _ & Hcalls).
      eexists. split; [simpl; rewrite Hcalls; simpl; by rewrite <- app_assoc|].
      by eexists. }
  destruct (write_fault env o (audio_content resp)) as [e|] eqn:Hw.
  - destruct (write_stage_fault env o w3 resp e Ho Hw) as (w' & -> & _ & Hcalls).
    eexists. split; [simpl; rewrite Hcalls; simpl; by rewrite <- app_assoc|].
    by exists [].
  - destruct (write_stage_ok env o w3 resp Ho Hw) as (w' & -> & _ & _ & _ & Hcalls).
    eexists. split; [simpl; rewrite Hcalls; simpl; by rewrite <- app_assoc|].
    by exists [].
Qed.

(** The calls of [list_voices] are an initial part of: create the client,
    query the catalog. *)
Lemma listing_calls_prefix env lc w :
  exists evs,
    calls (final_world (list_voices env lc w)) = calls w ++ evs /\
    evs `prefix_of` [EvClientCreate; EvListVoices lc].
Proof.
  destruct (client_init env) as [e|] eqn:Hc.
  { exists [EvClientCreate]. rewrite (listing_connect_down env lc w e Hc).
    split; [done|by eexists]. }
  exists [EvClientCreate; EvListVoices lc]. split; [|by exists []].
  destruct (api_list_voices env lc) as [e|resp] eqn:Hq.
  - by rewrite (listing_query_refused env lc w e Hc Hq).
  - by rewrite (listing_ok env lc w resp Hc Hq).
Qed.

Lemma help_branch env w :
  bind (print_help env) (fun _ => sys_exit 1) w = usage_exit env w.
Proof. reflexivity. Qed.

(** A read that fails ends the run, whatever the failure. *)
Lemma read_stage_fails env i o v l w :
  input_text w i = None ->
  exists w', text_to_speech env i o v l w = Exited 1 w'.
Proof.
  intros Hr. destruct (fs w !! i) as [nd|] eqn:Hnd.
  - destruct (read_stage_unreadable env i o v l w nd Hnd Hr) as (e & _ & ->). by eexists.
  - rewrite (read_stage_missing env i o v l w Hnd). by eexists.
Qed.

(** *** The claims *)

(** C1, as the code has it.  For a valid input text file (present,
    readable, well-formed UTF-8) and a voice and language that the remote
    service accepts, provided that the output path can be opened for binary
    writing and the host carries out the write, the synthesis flow
    completes and leaves at the output path a file whose contents are
    exactly the bytes of the payload the service returned; the bytes handed
    to the write call are the payload itself. *)
Theorem synthesis_writes_payload (env : Env)
    (input_file output_file voice_name language_code : string)
    (w : World) (txt : list N) (resp : SynthesizeSpeechResponse) :
  input_text w input_file = Some txt ->
  client_init env = None ->
  api_synthesize_speech env {| text := txt |}
    {| vsp_language_code := language_code; vsp_name := voice_name |}
    {| audio_encoding := MP3 |} = inr resp ->
  openable_wb env w output_file = true ->
  write_fault env output_file (audio_content resp) = None ->
  exists w',
    text_to_speech env input_file output_file voice_name language_code w = Done tt w' /\
    file_content w' output_file = Some (audio_content resp) /\
    calls w' = calls w ++
      pipeline input_file output_file voice_name language_code txt (audio_content resp).
Proof.
  intros Hr Hc Hs Ho Hw.
  rewrite (synthesis_stage_ok env _ output_file _ _ w txt resp Hr Hc Hs).
  set (w3 := advance w _ _).
  destruct (write_stage_ok env output_file w3 resp Ho Hw)
    as (w' & Hrun & Hfile & _ & _ & Hcalls).
  exists w'. split; [done|]. split; [done|].
  rewrite Hcalls. simpl. by rewrite <- app_assoc.
Qed.

Lemma synthesis_writes_payload_witness :
  input_text Sample.start "in.txt" = Some [72%N; 105%N] /\
  openable_wb Sample.up Sample.start "out.mp3" = true /\
  exists w',
    text_to_speech Sample.up "in.txt" "out.mp3" "en-US-Wavenet-D" "en-US" Sample.start
      = Done tt w' /\
    file_content w' "out.mp3" = Some Sample.mp3 /\
    calls w' = calls Sample.start ++
      pipeline "in.txt" "out.mp3" "en-US-Wavenet-D" "en-US" [72%N; 105%N] Sample.mp3.
Proof.
  split; [reflexivity|]. split; [reflexivity|].
  apply (synthesis_writes_payload Sample.up "in.txt" "out.mp3" "en-US-Wavenet-D" "en-US"
           Sample.start [72%N; 105%N] {| audio_content := Sample.mp3 |});
    reflexivity.
Defined.

(** The claim C1 as stated fails: the input file is valid and the service
    accepts the voice and the language and returns a payload, yet with an
    output path that names a directory the run ends with exit status 1 and
    no file with the payload exists at the output path. *)
Lemma payload_not_written_to_directory :
  input_text Sample.start "in.txt" = Some [72%N; 105%N] /\
  client_init Sample.up = None /\
  api_synthesize_speech Sample.up {| text := [72%N; 105%N] |}
    {| vsp_language_code := "en-US"; vsp_name := "en-US-Wavenet-D" |}
    {| audio_encoding := MP3 |} = inr {| audio_content := Sample.mp3 |} /\
  fs Sample.start !! "music" = Some Directory /\
  exit_status
    (text_to_speech Sample.up "in.txt" "music" "en-US-Wavenet-D" "en-US" Sample.start)
  = 1 /\
  file_content
    (final_world
       (text_to_speech Sample.up "in.txt" "music" "en-US-Wavenet-D" "en-US" Sample.start))
    "music"
  <> Some Sample.mp3.
Proof.
  split; [reflexivity|]. split; [reflexivity|]. split; [reflexivity|].
  split; [reflexivity|]. split; [reflexivity|]. discriminate.
Qed.

(** C2. When the remote service fails at the connection stage, at the
    catalog query or at the synthesis call, the flow ends the process with
    exit status 1; the calls it made stop at the failing one, none of them
    opens or writes an output file, and the file system is as it was.  The
    last line on the console reports the failure. *)
Theorem remote_failure_aborts (env : Env) (site : failure_site) (w : World) (e : exn) :
  fails_at env site w e ->
  exists w',
    flow_of env site w = Exited 1 w' /\
    exit_status (flow_of env site w) <> 0 /\
    calls w' = calls w ++ calls_until site w /\
    Forall (fun ev => is_write_step ev = false) (calls_until site w) /\
    fs w' = fs w /\
    last (console w') = Some (failure_report env site e).
Proof.
  destruct site as [lc|lc|i o v l|i o v l]; simpl.
  - intros Hc. rewrite (listing_connect_down env lc w e Hc).
    eexists. repeat split; [done|by repeat constructor|].
    simpl. by rewrite last_app_cons.
  - intros [Hc Hq]. rewrite (listing_query_refused env lc w e Hc Hq).
    eexists. repeat split; [done|by repeat constructor|].
    simpl. by rewrite last_app_cons.
  - intros [[txt Hr] Hc]. rewrite (connect_stage_down env i o v l w txt e Hr Hc).
    eexists. repeat split; [done|by repeat constructor|].
    simpl. by rewrite last_app_cons.
  - intros (txt & Hr & Hc & Hs).
    rewrite (synthesis_stage_refused env i o v l w txt e Hr Hc Hs), Hr.
    eexists. repeat split; [done|by repeat constructor|].
    simpl. by rewrite last_app_cons.
Qed.

Lemma remote_failure_aborts_witness :
  fails_at Sample.refusing (SynthesisCall "in.txt" "old.mp3" "xx-XX-Nobody" "en-US")
    Sample.start (ServiceError "400 Voice does not exist") /\
  exists w',
    text_to_speech Sample.refusing "in.txt" "old.mp3" "xx-XX-Nobody" "en-US" Sample.start
      = Exited 1 w' /\
    exit_status (text_to_speech Sample.refusing "in.txt" "old.mp3" "xx-XX-Nobody" "en-US"
                   Sample.start) <> 0 /\
    calls w' = [EvOpenRead "in.txt"; EvClientCreate;
                synthesis_call [72%N; 105%N] "xx-XX-Nobody" "en-US"] /\
    Forall (fun ev => is_write_step ev = false)
      [EvOpenRead "in.txt"; EvClientCreate;
       synthesis_call [72%N; 105%N] "xx-XX-Nobody" "en-US"] /\
    fs w' = fs Sample.start /\
    last (console w') = Some (mark_err +:+ " Error during synthesis: 400 Voice does not exist").
Proof.
  assert (H : fails_at Sample.refusing
                (SynthesisCall "in.txt" "old.mp3" "xx-XX-Nobody" "en-US")
                Sample.start (ServiceError "400 Voice does not exist")).
  { exists [72%N; 105%N]. repeat split; reflexivity. }
  split; [exact H|].
  exact (remote_failure_aborts Sample.refusing
           (SynthesisCall "in.txt" "old.mp3" "xx-XX-Nobody" "en-US")
           Sample.start (ServiceError "400 Voice does not exist") H).
Defined.



(** C10. On a run of the synthesis flow that completes, with an output path
    that named a regular file before the run, the file afterwards holds
    exactly the payload the service returned for the text of the input: the
    old contents are gone, and unless they were empty the file is not the
    old contents followed by the payload. *)
Theorem synthesis_overwrites_output (env : Env)
    (input_file output_file voice_name language_code : string)
    (w w' : World) (old : list byte) :
  file_content w output_file = Some old ->
  text_to_speech env input_file output_file voice_name language_code w = Done tt w' ->
  exists txt resp,
    input_text w input_file = Some txt /\
    api_synthesize_speech env {| text := txt |}
      {| vsp_language_code := language_code; vsp_name := voice_name |}
      {| audio_encoding := MP3 |} = inr resp /\
    file_content w' output_file = Some (audio_content resp) /\
    (old <> [] -> file_content w' output_file <> Some (old ++ audio_content resp)).
Proof.
  intros Hold Hrun.
  destruct (input_text w input_file) as [txt|] eqn:Hr.
  2:{ destruct (read_stage_fails env input_file output_file voice_name
                  language_code w Hr) as (w1 & H1). congruence. }
  destruct (client_init env) as [e|] eqn:Hc.
  { rewrite (connect_stage_down env _ output_file voice_name language_code w txt e Hr Hc)
      in Hrun. discriminate. }
  destruct (api_synthesize_speech env {| text := txt |}
              {| vsp_language_code := language_code; vsp_name := voice_name |}
              {| audio_encoding := MP3 |}) as [e|resp] eqn:Hs.
  { rewrite (synthesis_stage_refused env _ output_file _ _ w txt e Hr Hc Hs) in Hrun.
    discriminate. }
  rewrite (synthesis_stage_ok env _ output_file _ _ w txt resp Hr Hc Hs) in Hrun.
  set (w3 := advance w _ _) in Hrun.
  destruct (openable_wb env w3 output_file) eqn:Ho.
  2:{ destruct (write_stage_closed env output_file w3 resp Ho) as (w1 & H1 & _).
      congruence. }
  destruct (write_fault env output_file (audio_content resp)) as [e|] eqn:Hw.
  { destruct (write_stage_fault env output_file w3 resp e Ho Hw) as (w1 & H1 & _).
    congruence. }
  destruct (write_stage_ok env output_file w3 resp Ho Hw) as (w1 & H1 & Hfile & _).
  assert (w1 = w') as -> by congruence.
  exists txt, resp. split; [done|]. split; [done|]. split; [done|].
  intros Hne. rewrite Hfile. intros [= Heq].
  apply Hne. apply (f_equal length) in Heq. rewrite length_app in Heq.
  destruct old; [done|]. simpl in Heq. lia.
Qed.

Lemma synthesis_overwrites_output_witness :
  file_content Sample.start "old.mp3" = Some [xff; xfb; x90] /\
  exists txt resp,
    input_text Sample.start "in.txt" = Some txt /\
    api_synthesize_speech Sample.up {| text := txt |}
      {| vsp_language_code := "en-US"; vsp_name := "en-US-Wavenet-D" |}
      {| audio_encoding := MP3 |} = inr resp /\
    file_content
      (final_world (text_to_speech Sample.up "in.txt" "old.mp3" "en-US-Wavenet-D" "en-US"
                      Sample.start)) "old.mp3" = Some (audio_content resp) /\
    ([xff; xfb; x90] <> [] ->
     file_content
       (final_world (text_to_speech Sample.up "in.txt" "old.mp3" "en-US-Wavenet-D" "en-US"
                       Sample.start)) "old.mp3"
     <> Some ([xff; xfb; x90] ++ audio_content resp)).
Proof.
  split; [reflexivity|].
  apply (synthesis_overwrites_output Sample.up "in.txt" "old.mp3" "en-US-Wavenet-D" "en-US"
           Sample.start
           (final_world (text_to_speech Sample.up "in.txt" "old.mp3" "en-US-Wavenet-D"
                           "en-US" Sample.start))
           [xff; xfb; x90]);
    reflexivity.
Defined.



Example listing_sample_console :
  console (final_world (list_voices Sample.up "en-US" Sample.start)) =
  [ PyStr.nl +:+ "============================================================";
    "Available voices for language: en-US";
    "============================================================" +:+ PyStr.nl;
    "Name: en-US-Wavenet-D"; "Languages: en-US"; "Gender: MALE";
    "Natural Sample Rate: 24000 Hz";
    "------------------------------------------------------------";
    "Name: en-GB-Neural2-F"; "Languages: en-GB, en-US"; "Gender: FEMALE";
    "Natural Sample Rate: 48000 Hz";
    "------------------------------------------------------------" ].
Proof. reflexivity. Qed.

(** *** Dispatch in [main] *)

Lemma truthy_false x : PyStr.truthy x = false <-> missing_or_empty x.
Proof.
  unfold missing_or_empty. destruct x as [s|]; simpl.
  - destruct (String.eqb_spec s "") as [->|Hne]; simpl.
    + split; [intros _; by right | done].
    + split; [discriminate|]. intros [H|H]; [discriminate|]. by injection H.
  - split; [intros _; by left | done].
Qed.

Lemma truthy_true x : PyStr.truthy x = true <-> exists s, x = Some s /\ s <> "".
Proof.
  destruct x as [s|]; simpl.
  - destruct (String.eqb_spec s "") as [->|Hne]; simpl.
    + split; [discriminate|]. by intros (s' & [= <-] & Hs').
    + split; [|done]. intros _. by exists s.
  - split; [discriminate|]. by intros (s' & H & _).
Qed.

Lemma main_listing env cl w :
  given_list_voices cl = true ->
  main env cl w = list_voices env (default language_default (given_language cl)) w.
Proof. unfold main. simpl. by intros ->. Qed.

Lemma main_usage env cl w :
  given_list_voices cl = false ->
  missing_or_empty (given_input_file cl) \/ missing_or_empty (given_output_file cl) ->
  main env cl w = usage_exit env w.
Proof.
  unfold main. simpl. intros -> H.
  rewrite <- !truthy_false in H.
  destruct H as [-> | ->]; [done|].
  by rewrite orb_true_r.
Qed.

Lemma main_synthesis env cl w i o :
  given_list_voices cl = false ->
  given_input_file cl = Some i -> i <> "" ->
  given_output_file cl = Some o -> o <> "" ->
  main env cl w =
  text_to_speech env i o (default voice_default (given_voice cl))
    (default language_default (given_language cl)) w.
Proof.
  unfold main. simpl. intros -> Hi Hi' Ho Ho'.
  assert (PyStr.truthy (given_input_file cl) = true) as -> by (apply truthy_true; eauto).
  assert (PyStr.truthy (given_output_file cl) = true) as -> by (apply truthy_true; eauto).
  by rewrite Hi, Ho.
Qed.

(** C3, as the code has it.  For every parsed argument set exactly one of
    three cases applies, and [main] behaves accordingly: with the
    list-voices flag set it runs the listing flow on the language code,
    whatever the positional arguments are; otherwise, if the input path or
    the output path is missing or is the empty string, it prints the usage
    help and ends the process with exit status 1; otherwise it runs the
    synthesis flow on the two paths, the voice and the language code. *)
Theorem main_dispatch (env : Env) (cl : CommandLine) (w : World) :
  let args := parse_args cl in
  let listing := args_list_voices args = true in
  let usage := args_list_voices args = false /\
               (missing_or_empty (args_input_file args) \/
                missing_or_empty (args_output_file args)) in
  let synthesis := args_list_voices args = false /\
                   exists i o, args_input_file args = Some i /\ i <> "" /\
                               args_output_file args = Some o /\ o <> "" in
  ((listing /\ ~ usage /\ ~ synthesis) \/
   (~ listing /\ usage /\ ~ synthesis) \/
   (~ listing /\ ~ usage /\ synthesis)) /\
  (listing -> main env cl w = list_voices env (args_language args) w) /\
  (usage -> main env cl w = usage_exit env w) /\
  (forall i o,
     args_list_voices args = false ->
     args_input_file args = Some i -> i <> "" ->
     args_output_file args = Some o -> o <> "" ->
     main env cl w = text_to_speech env i o (args_voice args) (args_language args) w).
Proof.
  simpl. split; [|split; [|split]].
  - destruct (given_list_voices cl) eqn:Hl.
    { left. split; [done|]. split; intros [H _]; discriminate. }
    right.
    destruct (PyStr.truthy (given_input_file cl)) eqn:Hi;
      [destruct (PyStr.truthy (given_output_file cl)) eqn:Ho|].
    + right. split; [discriminate|]. split.
      * intros [_ [H|H]]; apply truthy_false in H; congruence.
      * split; [done|].
        apply truthy_true in Hi as (i & Hi & Hi'), Ho as (o & Ho & Ho').
        by exists i, o.
    + left. split; [discriminate|]. apply truthy_false in Ho.
      split; [split; [done|by right]|].
      intros [_ (i & o & _ & _ & Ho' & Hne)].
      destruct Ho as [Ho|Ho]; rewrite Ho in Ho'; [discriminate|].
      injection Ho' as <-. by apply Hne.
    + left. split; [discriminate|]. apply truthy_false in Hi.
      split; [split; [done|by left]|].
      intros [_ (i & o & Hi' & Hne & _)].
      destruct Hi as [Hi|Hi]; rewrite Hi in Hi'; [discriminate|].
      injection Hi' as <-. by apply Hne.
  - apply main_listing.
  - intros [Hl H]. by apply main_usage.
  - intros i o. apply main_synthesis.
Qed.

Lemma main_dispatch_witness :
  main Sample.up (Sample.cmd (Some "in.txt") (Some "out.mp3") false None None) Sample.start
  = text_to_speech Sample.up "in.txt" "out.mp3" "en-US-Wavenet-D" "en-US" Sample.start /\
  main Sample.up (Sample.cmd (Some "in.txt") None false None None) Sample.start
  = usage_exit Sample.up Sample.start /\
  main Sample.up (Sample.cmd (Some "in.txt") (Some "out.mp3") true None (Some "en-GB"))
    Sample.start
  = list_voices Sample.up "en-GB" Sample.start.
Proof.
  split; [|split].
  - apply (main_dispatch Sample.up
             (Sample.cmd (Some "in.txt") (Some "out.mp3") false None None) Sample.start);
      [reflexivity | reflexivity | discriminate | reflexivity | discriminate].
  - apply (main_dispatch Sample.up (Sample.cmd (Some "in.txt") None false None None)
             Sample.start).
    split; [reflexivity | right; left; reflexivity].
  - apply (main_dispatch Sample.up
             (Sample.cmd (Some "in.txt") (Some "out.mp3") true None (Some "en-GB"))
             Sample.start).
    reflexivity.
Defined.

(** The claim C3 as stated fails: with both positional arguments supplied
    and the list-voices flag off, an empty input path makes [main] print the
    usage help instead of entering the synthesis flow, which would have
    tried to open the input. *)
Lemma main_dispatch_supplied_but_empty :
  let cl := Sample.cmd (Some "") (Some "out.mp3") false None None in
  given_list_voices cl = false /\
  given_input_file cl <> None /\
  given_output_file cl <> None /\
  main Sample.up cl Sample.start = usage_exit Sample.up Sample.start /\
  calls (final_world (main Sample.up cl Sample.start)) = [] /\
  calls (final_world (text_to_speech Sample.up "" "out.mp3" voice_default language_default
                        Sample.start)) = [EvOpenRead ""] /\
  main Sample.up cl Sample.start
  <> text_to_speech Sample.up "" "out.mp3" voice_default language_default Sample.start.
Proof.
  intros cl. split; [reflexivity|]. split; [discriminate|]. split; [discriminate|].
  split; [reflexivity|]. split; [reflexivity|]. split; [reflexivity|].
  intros H. apply (f_equal (fun r => calls (final_world r))) in H. discriminate H.
Qed.

(** *** What reaches the remote service *)

Lemma pipeline_carries i o v l txt payload :
  Forall (carries v l) (pipeline i o v l txt payload).
Proof. repeat constructor; simpl; congruence. Qed.

Lemma listing_carries v l : Forall (carries v l) [EvClientCreate; EvListVoices l].
Proof. repeat constructor; simpl; congruence. Qed.

Lemma Forall_prefix {A} (P : A -> Prop) (l k : list A) :
  l `prefix_of` k -> Forall P k -> Forall P l.
Proof. intros [r ->] H. by apply Forall_app in H as [H _]. Qed.

(** Every call of a run of [main] carries the voice and the language of the
    parsed arguments. *)
Lemma main_calls env cl w :
  exists evs,
    calls (final_world (main env cl w)) = calls w ++ evs /\
    Forall (carries (args_voice (parse_args cl)) (args_language (parse_args cl))) evs.
Proof.
  unfold main. destruct (args_list_voices (parse_args cl)).
  { destruct (listing_calls_prefix env (args_language (parse_args cl)) w)
      as (evs & Hc & Hp).
    exists evs. split; [done|]. eapply Forall_prefix; [done|apply listing_carries]. }
  destruct (negb _ || negb _).
  { exists []. split; [|constructor]. simpl. by rewrite app_nil_r. }
  destruct (synthesis_calls_prefix env
              (default "" (args_input_file (parse_args cl)))
              (default "" (args_output_file (parse_args cl)))
              (args_voice (parse_args cl)) (args_language (parse_args cl)) w)
    as (txt & payload & evs & Hc & Hp).
  exists evs. split; [done|]. eapply Forall_prefix; [done|apply pipeline_carries].
Qed.

(** C6, as the code has it.  When [--voice] is omitted the voice name in the
    parsed arguments, and in every request sent to the remote service, is
    "en-US-Wavenet-D"; when [--language] is omitted the language code in the
    parsed arguments, and in every request sent to the remote service, is
    "en-US". *)
Theorem option_defaults (env : Env) (cl : CommandLine) (w : World) :
  exists evs,
    calls (final_world (main env cl w)) = calls w ++ evs /\
    (given_voice cl = None ->
     args_voice (parse_args cl) = "en-US-Wavenet-D" /\
     Forall (fun ev => forall v, voice_sent ev = Some v -> v = "en-US-Wavenet-D") evs) /\
    (given_language cl = None ->
     args_language (parse_args cl) = "en-US" /\
     Forall (fun ev => forall l, language_sent ev = Some l -> l = "en-US") evs).
Proof.
  destruct (main_calls env cl w) as (evs & Hc & Hall).
  exists evs. split; [done|]. split.
  - intros Hv. assert (args_voice (parse_args cl) = "en-US-Wavenet-D") as Heq
      by (simpl; by rewrite Hv).
    split; [done|]. rewrite Heq in Hall.
    eapply Forall_impl; [exact Hall|]. by intros ev [H _].
  - intros Hl. assert (args_language (parse_args cl) = "en-US") as Heq
      by (simpl; by rewrite Hl).
    split; [done|]. rewrite Heq in Hall.
    eapply Forall_impl; [exact Hall|]. by intros ev [_ H].
Qed.

Lemma option_defaults_witness :
  let cl := Sample.cmd (Some "in.txt") (Some "out.mp3") false None None in
  given_voice cl = None /\ given_language cl = None /\
  exists evs,
    calls (final_world (main Sample.up cl Sample.start)) = calls Sample.start ++ evs /\
    (args_voice (parse_args cl) = "en-US-Wavenet-D" /\
     Forall (fun ev => forall v, voice_sent ev = Some v -> v = "en-US-Wavenet-D") evs) /\
    (args_language (parse_args cl) = "en-US" /\
     Forall (fun ev => forall l, language_sent ev = Some l -> l = "en-US") evs).
Proof.
  intros cl. split; [reflexivity|]. split; [reflexivity|].
  destruct (option_defaults Sample.up cl Sample.start) as (evs & Hc & Hv & Hl).
  exists evs. split; [exact Hc|].
  split; [apply Hv; reflexivity | apply Hl; reflexivity].
Defined.

(** The claim C6 as stated fails: with [--voice] omitted the synthesis
    request names the voice "en-US-Wavenet-D", which is not the identifier
    the claim gives. *)
Lemma default_voice_differs_from_stated :
  let cl := Sample.cmd (Some "in.txt") (Some "out.mp3") false None None in
  given_voice cl = None /\
  args_voice (parse_args cl) = "en-US-Wavenet-D" /\
  args_voice (parse_args cl) <> "standard-en-US-D-equivalent" /\
  exists ev,
    ev ∈ calls (final_world (main Sample.up cl Sample.start)) /\
    voice_sent ev = Some "en-US-Wavenet-D" /\
    voice_sent ev <> Some "standard-en-US-D-equivalent".
Proof.
  simpl. repeat split; try discriminate.
  exists (synthesis_call [72%N; 105%N] "en-US-Wavenet-D" "en-US").
  repeat split; try discriminate.
  vm_compute. do 2 apply list_elem_of_further. apply list_elem_of_here.
Qed.

(** C7. Run with neither positional argument and without [--list-voices],
    [main] prints the usage help and ends the process with exit status 1;
    it makes no call to the file system or to the remote service, and the
    file system is as it was. *)
Theorem usage_without_arguments (env : Env) (cl : CommandLine) (w : World) :
  given_input_file cl = None ->
  given_output_file cl = None ->
  given_list_voices cl = false ->
  exists w',
    main env cl w = Exited 1 w' /\
    exit_status (main env cl w) <> 0 /\
    console w' = console w ++ [format_help env] /\
    calls w' = calls w /\
    fs w' = fs w.
Proof.
  intros Hi Ho Hl.
  rewrite (main_usage env cl w Hl) by (left; left; exact Hi).
  eexists. by repeat split.
Qed.

Lemma usage_without_arguments_witness :
  exists w',
    main Sample.up (Sample.cmd None None false (Some "en-GB-Neural2-F") None) Sample.start
      = Exited 1 w' /\
    exit_status
      (main Sample.up (Sample.cmd None None false (Some "en-GB-Neural2-F") None)
         Sample.start) <> 0 /\
    console w' = console Sample.start ++ [format_help Sample.up] /\
    calls w' = calls Sample.start /\
    fs w' = fs Sample.start.
Proof.
  apply (usage_without_arguments Sample.up
           (Sample.cmd None None false (Some "en-GB-Neural2-F") None) Sample.start);
    reflexivity.
Defined.

(** C8. With [--list-voices] set, the value of [--voice] does not matter:
    two command lines that differ only there make [main] behave the same,
    and both runs are the listing flow on the same language code. *)
Theorem voice_ignored_when_listing (env : Env) (cl : CommandLine)
    (v : option string) (w : World) :
  given_list_voices cl = true ->
  main env cl w = main env (with_voice v cl) w /\
  main env cl w = list_voices env (args_language (parse_args cl)) w /\
  main env (with_voice v cl) w = list_voices env (args_language (parse_args cl)) w.
Proof.
  intros Hl. rewrite (main_listing env cl w Hl).
  by rewrite (main_listing env (with_voice v cl) w Hl).
Qed.

Lemma voice_ignored_when_listing_witness :
  let cl := Sample.cmd None None true (Some "en-US-Wavenet-H") (Some "en-GB") in
  main Sample.up cl Sample.start = main Sample.up (with_voice (Some "nonsense") cl) Sample.start /\
  main Sample.up cl Sample.start = list_voices Sample.up "en-GB" Sample.start /\
  main Sample.up (with_voice (Some "nonsense") cl) Sample.start
    = list_voices Sample.up "en-GB" Sample.start.
Proof.
  intros cl.
  apply (voice_ignored_when_listing Sample.up cl (Some "nonsense") Sample.start).
  reflexivity.
Defined.

(** C9. Without [--list-voices], a positional argument given as the empty
    string counts as missing: [main] prints the usage help and ends the
    process with exit status 1, exactly as it does with no positional
    argument at all, and does not enter the synthesis flow (no file is
    opened, no call is made). *)
Theorem empty_positional_is_missing (env : Env) (cl : CommandLine) (w : World) :
  given_list_voices cl = false ->
  given_input_file cl = Some "" \/ given_output_file cl = Some "" ->
  main env cl w = usage_exit env w /\
  main env cl w = main env (without_positionals cl) w /\
  exit_status (main env cl w) = 1 /\
  calls (final_world (main env cl w)) = calls w /\
  fs (final_world (main env cl w)) = fs w.
Proof.
  intros Hl H.
  assert (main env cl w = usage_exit env w) as ->.
  { apply main_usage; [done|]. unfold missing_or_empty. tauto. }
  rewrite (main_usage env (without_positionals cl) w) by (done || by left; left).
  done.
Qed.

Lemma empty_positional_is_missing_witness :
  let cl := Sample.cmd (Some "in.txt") (Some "") false None None in
  main Sample.up cl Sample.start = usage_exit Sample.up Sample.start /\
  main Sample.up cl Sample.start = main Sample.up (without_positionals cl) Sample.start /\
  exit_status (main Sample.up cl Sample.start) = 1 /\
  calls (final_world (main Sample.up cl Sample.start)) = calls Sample.start /\
  fs (final_world (main Sample.up cl Sample.start)) = fs Sample.start.
Proof.
  intros cl.
  apply (empty_positional_is_missing Sample.up cl Sample.start);
    [reflexivity | right; reflexivity].
Defined.

(** ** Further properties of the script *)

(** *** The write block when it fails *)

Lemma write_stage_closed_report env o w resp :
  openable_wb env w o = false ->
  exists e,
    write_stage env o resp w =
    Exited 1 (advance w [mark_err +:+ " Error writing output file: " +:+ str env e]
                        [EvOpenWrite o]).
Proof.
  intros Ho. destruct (open_wb_fail env _ _ Ho) as (e & He).
  exists e. unfold write_stage. erewrite try_raised; [|apply bind_raised, He].
  cbv beta. by rewrite report_and_exit, advance_advance.
Qed.

Lemma write_stage_fault_frame env o w resp e :
  openable_wb env w o = true ->
  write_fault env o (audio_content resp) = Some e ->
  exists w', write_stage env o resp w = Exited 1 w' /\
    (forall p, p <> o -> fs w' !! p = fs w !! p) /\
    calls w' = calls w ++ [EvOpenWrite o; EvWrite o (audio_content resp)].
Proof.
  intros Ho Hw.
  destruct (open_wb_ok env _ _ Ho) as (w1 & H1 & _ & Hfs1 & _ & Hcalls1).
  eexists. split.
  - unfold write_stage. erewrite try_raised; cycle 1.
    { rewrite (bind_done _ _ _ _ _ H1). apply bind_raised.
      unfold file_write. rewrite (bind_done _ _ _ _ _ (log_spec _ _)).
      rewrite Hw. reflexivity. }
    cbv beta. by rewrite report_and_exit, advance_advance.
  - split; [exact Hfs1|]. simpl. by rewrite Hcalls1, <- app_assoc.
Qed.

(** Every run of [text_to_speech] ends in one of the six ways. *)
Lemma synthesis_run_spec env i o v l w :
  synthesis_run env i o v l w (text_to_speech env i o v l w).
Proof.
  destruct (input_text w i) as [txt|] eqn:Hr.
  2:{ destruct (fs w !! i) as [nd|] eqn:Hnd.
      - destruct (read_stage_unreadable env i o v l w nd Hnd Hr) as (e & _ & ->).
        by apply RunReadFailed.
      - rewrite (read_stage_missing env i o v l w Hnd). by apply RunReadFailed. }
  destruct (client_init env) as [e|] eqn:Hc.
  { rewrite (connect_stage_down env i o v l w txt e Hr Hc).
    by eapply RunNoClient. }
  destruct (api_synthesize_speech env {| text := txt |}
              {| vsp_language_code := l; vsp_name := v |}
              {| audio_encoding := MP3 |}) as [e|resp] eqn:Hs.
  { rewrite (synthesis_stage_refused env i o v l w txt e Hr Hc Hs).
    by eapply RunRefused. }
  rewrite (synthesis_stage_ok env i o v l w txt resp Hr Hc Hs).
  set (w3 := advance w _ _).
  destruct (openable_wb env w o) eqn:Ho.
  2:{ destruct (write_stage_closed_report env o w3 resp Ho) as (e & ->).
      eapply RunOutputClosed; [done..|]. simpl. by rewrite <- app_assoc. }
  destruct (write_fault env o (audio_content resp)) as [e|] eqn:Hw.
  - destruct (write_stage_fault_frame env o w3 resp e Ho Hw) as (w' & -> & Hfs & Hcalls).
    eapply RunWriteFault; [done..|]. rewrite Hcalls. simpl. by rewrite <- app_assoc.
  - destruct (write_stage_ok env o w3 resp Ho Hw)
      as (w' & -> & Hfile & Hfs & Hcon & Hcalls).
    eapply RunComplete; [done..| |].
    + rewrite Hcalls. simpl. by rewrite <- app_assoc.
    + rewrite Hcon. simpl. by rewrite <- app_assoc.
Qed.

(** Every run of [list_voices] ends normally or in [sys.exit(1)], and leaves
    the file system as it was. *)
Lemma listing_outcome env lc w :
  exists w', fs w' = fs w /\
    (list_voices env lc w = Done tt w' \/ list_voices env lc w = Exited 1 w').
Proof.
  destruct (client_init env) as [e|] eqn:Hc.
  { rewrite (listing_connect_down env lc w e Hc). eexists. split; [|by right]. done. }
  destruct (api_list_voices env lc) as [e|resp] eqn:Hq.
  - rewrite (listing_query_refused env lc w e Hc Hq). eexists. split; [|by right]. done.
  - rewrite (listing_ok env lc w resp Hc Hq). eexists. split; [|by left]. done.
Qed.


(** X1. The output path is only looked at after the service has answered:
    with a readable input and an accepted request, an output path that
    cannot be opened for writing (a directory, a file without write
    permission, a place where no file can be created) ends the run with
    exit status 1 after the synthesis call was made; the last console line
    reports the write error and the file system is as it was. *)
Theorem unwritable_output_aborts (env : Env)
    (input_file output_file voice_name language_code : string)
    (w : World) (txt : list N) (resp : SynthesizeSpeechResponse) :
  input_text w input_file = Some txt ->
  client_init env = None ->
  api_synthesize_speech env {| text := txt |}
    {| vsp_language_code := language_code; vsp_name := voice_name |}
    {| audio_encoding := MP3 |} = inr resp ->
  openable_wb env w output_file = false ->
  exists w' e,
    text_to_speech env input_file output_file voice_name language_code w = Exited 1 w' /\
    fs w' = fs w /\
    calls w' = calls w ++
      [EvOpenRead input_file; EvClientCreate;
       synthesis_call txt voice_name language_code; EvOpenWrite output_file] /\
    last (console w') = Some (mark_err +:+ " Error writing output file: " +:+ str env e).
Proof.
  intros Hr Hc Hs Ho.
  rewrite (synthesis_stage_ok env _ output_file _ _ w txt resp Hr Hc Hs).
  set (w3 := advance w _ _).
  destruct (write_stage_closed_report env output_file w3 resp Ho) as (e & ->).
  eexists _, e. split; [done|]. split; [done|]. split.
  - simpl. by rewrite <- app_assoc.
  - simpl. by rewrite last_app_cons.
Qed.

Lemma unwritable_output_aborts_witness :
  input_text Sample.start "in.txt" = Some [72%N; 105%N] /\
  openable_wb Sample.up Sample.start "music" = false /\
  exists w' e,
    text_to_speech Sample.up "in.txt" "music" "en-US-Wavenet-D" "en-US" Sample.start
      = Exited 1 w' /\
    fs w' = fs Sample.start /\
    calls w' = calls Sample.start ++
      [EvOpenRead "in.txt"; EvClientCreate;
       synthesis_call [72%N; 105%N] "en-US-Wavenet-D" "en-US"; EvOpenWrite "music"] /\
    last (console w')
      = Some (mark_err +:+ " Error writing output file: " +:+ str Sample.up e).
Proof.
  split; [reflexivity|]. split; [reflexivity|].
  apply (unwritable_output_aborts Sample.up "in.txt" "music" "en-US-Wavenet-D" "en-US"
           Sample.start [72%N; 105%N] {| audio_content := Sample.mp3 |});
    reflexivity.
Defined.

(** X2. A run of [text_to_speech] completes exactly when all five steps go
    through: the input reads as text, the client is created, the service
    answers the request for that text, the output path opens for writing
    and the write is carried out.  In every other case it does not
    complete. *)
Theorem synthesis_completes_iff (env : Env)
    (input_file output_file voice_name language_code : string) (w : World) :
  (exists w',
     text_to_speech env input_file output_file voice_name language_code w = Done tt w')
  <->
  (exists txt resp,
     input_text w input_file = Some txt /\
     client_init env = None /\
     api_synthesize_speech env {| text := txt |}
       {| vsp_language_code := language_code; vsp_name := voice_name |}
       {| audio_encoding := MP3 |} = inr resp /\
     openable_wb env w output_file = true /\
     write_fault env output_file (audio_content resp) = None).
Proof.
  split.
  - intros (w' & Hrun).
    pose proof (synthesis_run_spec env input_file output_file voice_name language_code w)
      as Hspec.
    rewrite Hrun in Hspec. inversion Hspec; subst. by exists txt, resp.
  - intros (txt & resp & Hr & Hc & Hs & Ho & Hw).
    rewrite (synthesis_stage_ok env _ output_file _ _ w txt resp Hr Hc Hs).
    set (w3 := advance w _ _).
    destruct (write_stage_ok env output_file w3 resp Ho Hw) as (w' & Hrun & _).
    by exists w'.
Qed.


(** X5. With [--list-voices] set, [main] stays away from the file system,
    whatever positional arguments were given and however the run ends: no
    file is opened or written and the file system is as it was. *)
Theorem listing_leaves_files_alone (env : Env) (cl : CommandLine) (w : World) :
  given_list_voices cl = true ->
  fs (final_world (main env cl w)) = fs w /\
  exists evs,
    calls (final_world (main env cl w)) = calls w ++ evs /\
    Forall (fun ev => is_file_step ev = false) evs.
Proof.
  intros Hl. rewrite (main_listing env cl w Hl).
  set (lc := default language_default (given_language cl)).
  split.
  - destruct (listing_outcome env lc w) as (w' & Hfs & [-> | ->]); done.
  - destruct (listing_calls_prefix env lc w) as (evs & Hc & Hp).
    exists evs. split; [done|].
    eapply Forall_prefix; [exact Hp|]. by repeat constructor.
Qed.

Lemma listing_leaves_files_alone_witness :
  let cl := Sample.cmd (Some "in.txt") (Some "old.mp3") true None None in
  fs (final_world (main Sample.up cl Sample.start)) = fs Sample.start /\
  exists evs,
    calls (final_world (main Sample.up cl Sample.start)) = calls Sample.start ++ evs /\
    Forall (fun ev => is_file_step ev = false) evs.
Proof.
  intros cl. apply (listing_leaves_files_alone Sample.up cl Sample.start). reflexivity.
Defined.

(** A run that reads its input and creates the client sends the request
    for the text it read. *)
Lemma synthesis_request_sent env i o v l w txt :
  input_text w i = Some txt ->
  client_init env = None ->
  exists evs,
    calls (final_world (text_to_speech env i o v l w)) = calls w ++ evs /\
    synthesis_call txt v l ∈ evs.
Proof.
  intros Hr Hc.
  destruct (synthesis_run_spec env i o v l w)
    as [w' Hr' Hfs Hcalls | txt' e w' Hr' He Hfs Hcalls
       | txt' e w' Hr' Hcl Hs Hfs Hcalls
       | txt' resp w' Hr' Hcl Hs Ho Hfs Hcalls
       | txt' resp e w' Hr' Hcl Hs Ho Hw Hfs Hcalls
       | txt' resp w' Hr' Hcl Hs Ho Hw Hfile Hfs Hcalls Hcon];
    try congruence;
    assert (txt' = txt) as -> by congruence;
    eexists; (split; [exact Hcalls|]);
    unfold pipeline; do 2 apply list_elem_of_further; apply list_elem_of_here.
Qed.

(** A listing run that creates the client queries the catalog. *)
Lemma listing_query_sent env lc w :
  client_init env = None ->
  calls (final_world (list_voices env lc w)) = calls w ++ [EvClientCreate; EvListVoices lc].
Proof.
  intros Hc. destruct (api_list_voices env lc) as [e|resp] eqn:Hq.
  - by rewrite (listing_query_refused env lc w e Hc Hq).
  - by rewrite (listing_ok env lc w resp Hc Hq).
Qed.

(** X6. The calls of a run of [text_to_speech] are exactly the first steps
    of one fixed sequence, up to and including the first step that fails:
    open the input; create the client, if the input was read; send one
    request with the whole text read, the given voice and language and MP3
    as encoding, if the client was created; open the output, if the
    service answered; write the payload the service returned, if the output
    was opened.  No step is repeated, and none is made after a step that
    failed. *)
Theorem synthesis_calls_in_order (env : Env)
    (input_file output_file voice_name language_code : string) (w : World) :
  let txt := default [] (input_text w input_file) in
  calls (final_world
           (text_to_speech env input_file output_file voice_name language_code w))
  = calls w ++
    take (steps_made env w input_file output_file voice_name language_code)
      (pipeline input_file output_file voice_name language_code txt
         (returned_payload env txt voice_name language_code)).
Proof.
  simpl. unfold steps_made, returned_payload.
  destruct (synthesis_run_spec env input_file output_file voice_name language_code w)
    as [w' Hr Hfs Hc | txt e w' Hr He Hfs Hc | txt e w' Hr Hcl Hs Hfs Hc
       | txt resp w' Hr Hcl Hs Ho Hfs Hc | txt resp e w' Hr Hcl Hs Ho Hw Hfs Hc
       | txt resp w' Hr Hcl Hs Ho Hw Hfile Hfs Hc Hcon];
    rewrite Hr; simpl;
    try rewrite He; try rewrite Hcl; try rewrite Hs; try rewrite Ho;
    exact Hc.
Qed.

(** X7. [main] hands the values of [--voice] and [--language] to the remote
    service as they were given, whatever they are and with no check of one
    against the other.  Once the client is created, a listing run queries
    the catalog with the given language code, and a synthesis run that read
    its input sends the request with the given voice name and language
    code; nothing else is sent under another voice or language. *)
Theorem supplied_options_reach_service (env : Env) (cl : CommandLine) (w : World)
    (v l : string) :
  given_voice cl = Some v ->
  given_language cl = Some l ->
  client_init env = None ->
  exists evs,
    calls (final_world (main env cl w)) = calls w ++ evs /\
    Forall (fun ev => forall v', voice_sent ev = Some v' -> v' = v) evs /\
    Forall (fun ev => forall l', language_sent ev = Some l' -> l' = l) evs /\
    (given_list_voices cl = true -> EvListVoices l ∈ evs) /\
    (forall i o txt,
       given_list_voices cl = false ->
       given_input_file cl = Some i -> i <> "" ->
       given_output_file cl = Some o -> o <> "" ->
       input_text w i = Some txt ->
       synthesis_call txt v l ∈ evs).
Proof.
  intros Hv Hl Hc. destruct (main_calls env cl w) as (evs & Hcalls & Hall).
  exists evs. split; [done|].
  assert (args_voice (parse_args cl) = v) as Hav by (simpl; by rewrite Hv).
  assert (args_language (parse_args cl) = l) as Hal by (simpl; by rewrite Hl).
  rewrite Hav, Hal in Hall.
  split; [eapply Forall_impl; [exact Hall|]; by intros ev [H1 H2]|].
  split; [eapply Forall_impl; [exact Hall|]; by intros ev [H1 H2]|].
  split.
  - intros Hlv. rewrite (main_listing env cl w Hlv), Hl in Hcalls. simpl in Hcalls.
    rewrite (listing_query_sent env l w Hc) in Hcalls.
    apply app_inv_head in Hcalls as <-.
    apply list_elem_of_further, list_elem_of_here.
  - intros i o txt Hlv Hi Hi' Ho Ho' Hr.
    rewrite (main_synthesis env cl w i o Hlv Hi Hi' Ho Ho'), Hv, Hl in Hcalls.
    simpl in Hcalls.
    destruct (synthesis_request_sent env i o v l w txt Hr Hc) as (evs' & Hcalls' & Hin).
    rewrite Hcalls' in Hcalls. by apply app_inv_head in Hcalls as <-.
Qed.

Lemma supplied_options_reach_service_witness :
  let cl := Sample.cmd (Some "in.txt") (Some "out.mp3") false
              (Some "ja-JP-Standard-A") (Some "fr-FR") in
  exists evs,
    calls (final_world (main Sample.up cl Sample.start)) = calls Sample.start ++ evs /\
    synthesis_call [72%N; 105%N] "ja-JP-Standard-A" "fr-FR" ∈ evs.
Proof.
  intros cl.
  destruct (supplied_options_reach_service Sample.up cl Sample.start
              "ja-JP-Standard-A" "fr-FR" eq_refl eq_refl eq_refl)
    as (evs & Hcalls & _ & _ & _ & Hsent).
  exists evs. split; [exact Hcalls|].
  apply (Hsent "in.txt" "out.mp3" [72%N; 105%N]);
    [reflexivity | reflexivity | discriminate | reflexivity | discriminate | reflexivity].
Defined.

(** X8. The listing is all or nothing.  [list_voices] completes exactly
    when the client is created and the catalog query returns, and then the
    console gains the banner and the records.  When the client cannot be
    created it ends in [sys.exit(1)] and the console gains one line only,
    the report of that error; when the query fails it ends in
    [sys.exit(1)] and the console gains one line only, the report of that
    error: no banner and no part of a listing. *)
Theorem listing_all_or_nothing (env : Env) (language_code : string) (w : World) :
  ((exists w', list_voices env language_code w = Done tt w') <->
   (client_init env = None /\
    exists resp, api_list_voices env language_code = inr resp)) /\
  (forall resp,
     client_init env = None ->
     api_list_voices env language_code = inr resp ->
     exists w',
       list_voices env language_code w = Done tt w' /\
       console w' = console w ++ banner language_code ++
                    concat (map voice_record (voices resp))) /\
  (forall e,
     client_init env = Some e ->
     exists w',
       list_voices env language_code w = Exited 1 w' /\
       console w' = console w ++ ["Error creating client: " +:+ str env e]) /\
  (forall e,
     client_init env = None ->
     api_list_voices env language_code = inl e ->
     exists w',
       list_voices env language_code w = Exited 1 w' /\
       console w' = console w ++ ["Error listing voices: " +:+ str env e]).
Proof.
  split; [|split; [|split]].
  - destruct (client_init env) as [e|] eqn:Hc.
    { rewrite (listing_connect_down env language_code w e Hc).
      split; [by intros (w' & H) | by intros (H & _)]. }
    destruct (api_list_voices env language_code) as [e|resp] eqn:Hq.
    + rewrite (listing_query_refused env language_code w e Hc Hq).
      split; [by intros (w' & H) | by intros (_ & resp & H)].
    + rewrite (listing_ok env language_code w resp Hc Hq).
      split; [intros _; split; [done|by exists resp] | intros _; by eexists].
  - intros resp Hc Hq. rewrite (listing_ok env language_code w resp Hc Hq).
    by eexists.
  - intros e Hc. rewrite (listing_connect_down env language_code w e Hc). by eexists.
  - intros e Hc Hq. rewrite (listing_query_refused env language_code w e Hc Hq).
    by eexists.
Qed.

Lemma listing_all_or_nothing_witness :
  client_init Sample.refusing = None /\
  api_list_voices Sample.refusing "en-US" = inl (ServiceError "503 Service Unavailable") /\
  exists w',
    list_voices Sample.refusing "en-US" Sample.start = Exited 1 w' /\
    console w' = console Sample.start ++ ["Error listing voices: 503 Service Unavailable"].
Proof.
  split; [reflexivity|]. split; [reflexivity|].
  destruct (listing_all_or_nothing Sample.refusing "en-US" Sample.start)
    as (_ & _ & _ & H).
  exact (H (ServiceError "503 Service Unavailable") eq_refl eq_refl).
Defined.

(** X9. A complete run of [text_to_speech] prints six lines, in this order:
    the number of characters read from the input path (code points of the
    decoded text, not bytes), the connection notice, the voice and the
    language in use, the start and the end of the synthesis, and the output
    path written. *)
Theorem synthesis_progress_lines (env : Env)
    (input_file output_file voice_name language_code : string)
    (w w' : World) (txt : list N) :
  input_text w input_file = Some txt ->
  text_to_speech env input_file output_file voice_name language_code w = Done tt w' ->
  console w' = console w ++
    [ mark_ok +:+ " Read " +:+ pretty (length txt) +:+ " characters from '" +:+
        input_file +:+ "'";
      mark_ok +:+ " Connected to Google Cloud Text-to-Speech API";
      mark_ok +:+ " Using voice: " +:+ voice_name +:+ " (" +:+ language_code +:+ ")";
      mark_busy +:+ " Synthesizing speech...";
      mark_ok +:+ " Speech synthesis complete";
      mark_ok +:+ " Audio content written to '" +:+ output_file +:+ "'" ].
Proof.
  intros Hr Hrun.
  pose proof (synthesis_run_spec env input_file output_file voice_name language_code w)
    as Hspec.
  rewrite Hrun in Hspec. inversion Hspec; subst.
  assert (txt0 = txt) as -> by congruence. done.
Qed.

Lemma synthesis_progress_lines_witness :
  console (final_world
             (text_to_speech Sample.up "in.txt" "out.mp3" "en-US-Wavenet-D" "en-US"
                Sample.start))
  = [ mark_ok +:+ " Read 2 characters from 'in.txt'";
      mark_ok +:+ " Connected to Google Cloud Text-to-Speech API";
      mark_ok +:+ " Using voice: en-US-Wavenet-D (en-US)";
      mark_busy +:+ " Synthesizing speech...";
      mark_ok +:+ " Speech synthesis complete";
      mark_ok +:+ " Audio content written to 'out.mp3'" ].
Proof.
  apply (synthesis_progress_lines Sample.up "in.txt" "out.mp3" "en-US-Wavenet-D" "en-US"
           Sample.start
           (final_world
              (text_to_speech Sample.up "in.txt" "out.mp3" "en-US-Wavenet-D" "en-US"
                 Sample.start))
           [72%N; 105%N]); reflexivity.
Defined.

(** X10. An empty input file is not turned away by the script: once the
    client is created, the request is sent to the remote service with the
    empty text, and it is for the service to accept or refuse it. *)
Theorem empty_input_is_sent (env : Env)
    (input_file output_file voice_name language_code : string) (w : World)
    (writable : bool) :
  fs w !! input_file = Some (RegularFile [] true writable) ->
  client_init env = None ->
  exists evs,
    calls (final_world
             (text_to_speech env input_file output_file voice_name language_code w))
    = calls w ++ evs /\
    synthesis_call [] voice_name language_code ∈ evs.
Proof.
  intros Hnd Hc.
  assert (input_text w input_file = Some []) as Hr
    by (unfold input_text; by rewrite Hnd).
  destruct (synthesis_run_spec env input_file output_file voice_name language_code w)
    as [w' Hr' Hfs Hcalls | txt e w' Hr' He Hfs Hcalls | txt e w' Hr' Hcl Hs Hfs Hcalls
       | txt resp w' Hr' Hcl Hs Ho Hfs Hcalls | txt resp e w' Hr' Hcl Hs Ho Hw Hfs Hcalls
       | txt resp w' Hr' Hcl Hs Ho Hw Hfile Hfs Hcalls Hcon];
    try congruence;
    assert (txt = []) as -> by congruence;
    eexists; (split; [exact Hcalls|]);
    unfold pipeline; do 2 apply list_elem_of_further; apply list_elem_of_here.
Qed.

Lemma empty_input_is_sent_witness :
  fs Corner.start !! "empty.txt" = Some (RegularFile [] true true) /\
  exists evs,
    calls (final_world
             (text_to_speech Sample.up "empty.txt" "out.mp3" "en-US-Wavenet-D" "en-US"
                Corner.start))
    = calls Corner.start ++ evs /\
    synthesis_call [] "en-US-Wavenet-D" "en-US" ∈ evs.
Proof.
  split; [reflexivity|].
  apply (empty_input_is_sent Sample.up "empty.txt" "out.mp3" "en-US-Wavenet-D" "en-US"
           Corner.start true); reflexivity.
Defined.
